(** * Image classification service: retry loop and batch coordinator

    A shallow embedding of [app/services/image_detection/image_detection.py]
    (class [ImageDetectionService]): request construction, the retry loop of
    [classify_image] with its three [except] clauses and its backoff, and
    [classify_batch] with its semaphore.

    Conventions of the embedding.
    - A Python [str] is a list of Unicode code points ([str := list N]);
      [lit] turns a Rocq string literal into one.
    - [bytes] is [list byte].
    - A Python exception object is a value of [exn]: its class, as far as the
      [except] clauses of the source tell classes apart, and its [str(e)].
    - The network is an oracle [net : nat -> Request -> post_outcome] giving
      what [client.post] does on the attempt of that index.
    - [classify_image] returns its result together with the list of the
      effects it performed (requests sent, sleeps), in order.  Logging is
      left out.
    - [classify_batch] is a transition system: the semaphore's counter and
      the state of each task, moved by the steps of a schedule. *)

From Stdlib Require Import ZArith NArith List String Ascii Strings.Byte Lia Bool.
From Stdlib Require Import DecimalString.
From Stdlib Require Import Floats.PrimFloat.
From stdpp Require Import base list.

Set Warnings "-register-all,-inexact-float".

Local Open Scope Z_scope.

(* ===================================================================== *)
(** * Python strings *)
(* ===================================================================== *)

Module PyStr.

(** A [str] is a sequence of code points. *)
Definition str : Type := list N.

Definition lit (s : string) : str :=
  List.map N_of_ascii (list_ascii_of_string s).

(** [str(n)] for an [int]. *)
Definition str_int (z : Z) : str :=
  lit (NilZero.string_of_int (Z.to_int z)).

Fixpoint startswith (p s : str) : bool :=
  match p, s with
  | [], _ => true
  | _ :: _, [] => false
  | a :: p', b :: s' => N.eqb a b && startswith p' s'
  end.

(** [needle in hay] for two strings. *)
Fixpoint contains (needle hay : str) : bool :=
  startswith needle hay ||
  match hay with
  | [] => false
  | _ :: t => contains needle t
  end.

(** [str.isspace] on one code point: CPython's [_PyUnicode_IsWhitespace]. *)
Definition isspace (c : N) : bool :=
  ((9 <=? c) && (c <=? 13) ||
   (28 <=? c) && (c <=? 32) ||
   (c =? 133) || (c =? 160) || (c =? 5760) ||
   (8192 <=? c) && (c <=? 8202) ||
   (c =? 8232) || (c =? 8233) || (c =? 8239) || (c =? 8287) ||
   (c =? 12288))%N.

Fixpoint lstrip (s : str) : str :=
  match s with
  | [] => []
  | c :: t => if isspace c then lstrip t else s
  end.

Definition rstrip (s : str) : str := rev (lstrip (rev s)).

(** [s.strip()] with no argument. *)
Definition strip (s : str) : str := rstrip (lstrip s).

End PyStr.
Export PyStr.

(* ===================================================================== *)
(** * [base64.b64encode(data).decode("utf-8")] *)
(* ===================================================================== *)

Module Base64.

Definition alphabet : str :=
  lit "ABCDEFGHIJKLMNOPQRSTUVWXYZabcdefghijklmnopqrstuvwxyz0123456789+/".

Definition sextet (n : N) : N := nth (N.to_nat n) alphabet 0%N.

Definition pad : N := 61%N.

Fixpoint encode_N (bs : list N) : str :=
  match bs with
  | [] => []
  | [a] =>
      [sextet (N.shiftr a 2); sextet (N.shiftl (N.land a 3) 4); pad; pad]
  | [a; b] =>
      [sextet (N.shiftr a 2);
       sextet (N.lor (N.shiftl (N.land a 3) 4) (N.shiftr b 4));
       sextet (N.shiftl (N.land b 15) 2); pad]
  | a :: b :: c :: rest =>
      sextet (N.shiftr a 2)
      :: sextet (N.lor (N.shiftl (N.land a 3) 4) (N.shiftr b 4))
      :: sextet (N.lor (N.shiftl (N.land b 15) 2) (N.shiftr c 6))
      :: sextet (N.land c 63)
      :: encode_N rest
  end.

Definition b64encode (data : list byte) : str :=
  encode_N (List.map Byte.to_N data).

End Base64.

(* ===================================================================== *)
(** * Exceptions and parsed JSON *)
(* ===================================================================== *)

(** An exception object: its class, as far as the source's [except] clauses
    and messages distinguish classes, with [str(e)]. *)
Inductive exn : Type :=
| Exception (msg : str)          (* raise Exception(msg) *)
| TimeoutException (msg : str)   (* httpx.TimeoutException and subclasses *)
| RequestError (msg : str)       (* httpx.RequestError, timeouts apart *)
| TypeError (msg : str)
| KeyError (key_repr : str)
| IndexError (msg : str)
| AttributeError (msg : str)
| ValueError (msg : str)
| OtherError (msg : str).        (* any other subclass of Exception *)

Definition str_exn (e : exn) : str :=
  match e with
  | Exception m | TimeoutException m | RequestError m | TypeError m
  | KeyError m | IndexError m | AttributeError m | ValueError m
  | OtherError m => m
  end.

(** What [response.json()] can return. A [dict] is kept as its list of
    items; keys of a parsed object are distinct. *)
Inductive value : Type :=
| JNull
| JBool (b : bool)
| JInt (z : Z)
| JFloat (f : float)
| JStr (s : str)
| JArr (items : list value)
| JObj (items : list (str * value)).

Inductive res (A : Type) : Type :=
| Ok (a : A)
| Err (e : exn).
Arguments Ok {A} a.
Arguments Err {A} e.

Definition bind {A B} (r : res A) (k : A -> res B) : res B :=
  match r with
  | Ok a => k a
  | Err e => Err e
  end.

Notation "'do' x <- r ; k" := (bind r (fun x => k))
  (at level 10, x name, r at level 100, k at level 200).

Module Py.

Definition type_name (v : value) : str :=
  match v with
  | JNull => lit "NoneType"
  | JBool _ => lit "bool"
  | JInt _ => lit "int"
  | JFloat _ => lit "float"
  | JStr _ => lit "str"
  | JArr _ => lit "list"
  | JObj _ => lit "dict"
  end.

Definition str_eqb (a b : str) : bool :=
  (Nat.eqb (length a) (length b)) && startswith a b.

Fixpoint dict_get (k : str) (d : list (str * value)) : option value :=
  match d with
  | [] => None
  | (k', v) :: d' => if str_eqb k k' then Some v else dict_get k d'
  end.

(** [bool(v)]. *)
Definition truthy (v : value) : bool :=
  match v with
  | JNull => false
  | JBool b => b
  | JInt z => negb (z =? 0)
  | JFloat f => negb (PrimFloat.eqb f 0%float)
  | JStr s => negb (Nat.eqb (length s) 0)
  | JArr l => negb (Nat.eqb (length l) 0)
  | JObj d => negb (Nat.eqb (length d) 0)
  end.

Definition is_str (k : str) (v : value) : bool :=
  match v with
  | JStr s => str_eqb k s
  | _ => false
  end.

(** [k in v], for a string [k]. *)
Definition contains_key (k : str) (v : value) : res bool :=
  match v with
  | JObj d => Ok (match dict_get k d with Some _ => true | None => false end)
  | JArr l => Ok (existsb (is_str k) l)
  | JStr s => Ok (contains k s)
  | _ => Err (TypeError (lit "argument of type '" ++ type_name v
                          ++ lit "' is not iterable"))
  end.

(** [repr(k)] for the keys the source uses (no quote, no escape in them). *)
Definition repr_key (k : str) : str := lit "'" ++ k ++ lit "'".

(** [v[k]], for a string [k]. *)
Definition getitem (v : value) (k : str) : res value :=
  match v with
  | JObj d =>
      match dict_get k d with
      | Some x => Ok x
      | None => Err (KeyError (repr_key k))
      end
  | JArr _ => Err (TypeError (lit "list indices must be integers or slices, not str"))
  | JStr _ => Err (TypeError (lit "string indices must be integers, not 'str'"))
  | _ => Err (TypeError (lit "'" ++ type_name v ++ lit "' object is not subscriptable"))
  end.

(** [v[0]]. *)
Definition getitem0 (v : value) : res value :=
  match v with
  | JArr (x :: _) => Ok x
  | JArr [] => Err (IndexError (lit "list index out of range"))
  | JStr (c :: _) => Ok (JStr [c])
  | JStr [] => Err (IndexError (lit "string index out of range"))
  | JObj _ => Err (KeyError (lit "0"))
  | _ => Err (TypeError (lit "'" ++ type_name v ++ lit "' object is not subscriptable"))
  end.

(** [v.strip()]. *)
Definition strip_method (v : value) : res str :=
  match v with
  | JStr s => Ok (strip s)
  | _ => Err (AttributeError (lit "'" ++ type_name v
                               ++ lit "' object has no attribute 'strip'"))
  end.

End Py.

(* ===================================================================== *)
(** * The service: configuration, request, response *)
(* ===================================================================== *)

(** The fields of [app.config.config.Settings] the service reads. *)
Record Settings : Type := {
  OPENROUTER_API_KEY : str;
  OPENROUTER_URL : str;
  DEFAULT_MODEL : str;
  APP_NAME : str;
  REQUEST_TIMEOUT : float
}.

(** [ImageDetectionService], with the settings object it was built from. *)
Record ImageDetectionService : Type := {
  settings : Settings;
  api_url : str;
  api_key : str;
  timeout : float
}.

(** [ImageDetectionService.__init__]. *)
Definition init (s : Settings) : ImageDetectionService :=
  {| settings := s;
     api_url := OPENROUTER_URL s;
     api_key := OPENROUTER_API_KEY s;
     timeout := REQUEST_TIMEOUT s |}.

Inductive content_part : Type :=
| TextPart (text : str)          (* {"type": "text", "text": ...} *)
| ImageUrlPart (url : str).      (* {"type": "image_url", "image_url": {"url": ...}} *)

Record message : Type := {
  role : str;
  content : list content_part
}.

Record Payload : Type := {
  model : str;
  messages : list message;
  max_tokens : Z;
  temperature : float;
  stream : bool
}.

Record Request : Type := {
  req_url : str;
  req_json : Payload;
  req_headers : list (str * str)
}.

Record Response : Type := {
  status_code : Z;
  text : str;
  json : res value            (* what [response.json()] does *)
}.

(** What [await client.post(...)], inside [async with httpx.AsyncClient], does. *)
Inductive post_outcome : Type :=
| Responds (r : Response)
| Throws (e : exn).

(** The effects of [classify_image] that the claims speak of. *)
Inductive event : Type :=
| EvPost (attempt : nat) (req : Request)
| EvSleep (seconds : Z).

(** [_get_headers]. *)
Definition _get_headers (self : ImageDetectionService) : list (str * str) :=
  [ (lit "Authorization", lit "Bearer " ++ api_key self);
    (lit "Content-Type", lit "application/json");
    (lit "HTTP-Referer", APP_NAME (settings self));
    (lit "X-Title", APP_NAME (settings self)) ].

Definition prompt : str :=
  lit "What is this image? Give me a brief, clear identification "
  ++ lit "of the main object or subject in this image. "
  ++ lit "Just tell me what it is in 1-3 words if possible. "
  ++ lit "Be specific and accurate.".

(** [_prepare_payload]. *)
Definition _prepare_payload (self : ImageDetectionService)
    (image_base64 : str) (max_tokens : Z) (temperature : float) : Payload :=
  {| model := DEFAULT_MODEL (settings self);
     messages :=
       [ {| role := lit "user";
            content :=
              [ TextPart prompt;
                ImageUrlPart (lit "data:image/jpeg;base64," ++ image_base64) ] |} ];
     max_tokens := max_tokens;
     temperature := temperature;
     stream := false |}.

(* ===================================================================== *)
(** * [classify_image] *)
(* ===================================================================== *)

(** Lines 153-162: from the parsed body to the classification, or to the
    exception raised on the way. *)
Definition extract (result : value) : res str :=
  do has_choices <- Py.contains_key (lit "choices") result;
  do invalid <-
    (if negb has_choices then Ok true
     else do choices <- Py.getitem result (lit "choices");
          Ok (negb (Py.truthy choices)));
  if (invalid : bool) then Err (Exception (lit "Invalid response format from API"))
  else
    do choices <- Py.getitem result (lit "choices");
    do first <- Py.getitem0 choices;
    do msg <- Py.getitem first (lit "message");
    do body <- Py.getitem msg (lit "content");
    do classification <- Py.strip_method body;
    match classification with
    | [] => Err (Exception (lit "Empty classification result"))
    | _ :: _ => Ok classification
    end.

(** How control leaves the [try] block of one attempt (lines 126-162). *)
Inductive try_exit : Type :=
| Return (classification : str)   (* line 162 *)
| Continue (last_exception : exn) (* lines 146-147 *)
| Raise (e : exn).                (* an exception reaches the except clauses *)

Definition error_msg (r : Response) : str :=
  lit "API error " ++ str_int (status_code r) ++ lit ": " ++ text r.

Definition try_block (o : post_outcome) : try_exit :=
  match o with
  | Throws e => Raise e
  | Responds r =>
      if negb (status_code r =? 200) then
        if (400 <=? status_code r) && (status_code r <? 500)
        then Raise (Exception (error_msg r))
        else Continue (Exception (error_msg r))
      else
        match (do result <- json r; extract result) with
        | Ok classification => Return classification
        | Err e => Raise e
        end
  end.

(** Line 176: ["400" in str(e) or "401" in str(e) or "403" in str(e)]. *)
Definition has_client_code (s : str) : bool :=
  contains (lit "400") s || contains (lit "401") s || contains (lit "403") s.

(** What one iteration of the loop does after the [try] statement. *)
Inductive after_try : Type :=
| Returns (classification : str)
| NextAttempt (last_exception : exn)   (* [continue]: the backoff is skipped *)
| Break (last_exception : exn)         (* line 177 *)
| Backoff (last_exception : exn).      (* falls through to lines 180-183 *)

Section Classify.

(** [str(x)] for a [float], as the f-string of line 165 formats the timeout. *)
Variable str_float : float -> str.

(** The three [except] clauses, lines 164-177. *)
Definition except_clauses (self : ImageDetectionService) (x : try_exit) : after_try :=
  match x with
  | Return c => Returns c
  | Continue e => NextAttempt e
  | Raise (TimeoutException _) =>
      Backoff (Exception (lit "Request timeout after "
                          ++ str_float (timeout self) ++ lit "s"))
  | Raise (RequestError m) =>
      Backoff (Exception (lit "Request error: " ++ m))
  | Raise e =>
      if has_client_code (str_exn e) then Break e else Backoff e
  end.

(** How the [for] loop ends: by [return], or with the [last_exception] that
    line 185 reads (after a [break] or after the last iteration). *)
Inductive loop_exit : Type :=
| LoopReturn (classification : str)
| LoopEnd (last_exception : option exn).

(** Lines 180-183. *)
Definition backoff (attempt : nat) (retry_count : Z) : list event :=
  if Z.of_nat attempt <? retry_count - 1
  then [EvSleep (2 ^ Z.of_nat attempt)]
  else [].

(** [for attempt in range(retry_count)], from iteration [attempt] on, with
    [todo] iterations left. *)
Fixpoint attempts (self : ImageDetectionService) (net : nat -> Request -> post_outcome)
    (req : Request) (retry_count : Z)
    (todo : nat) (attempt : nat) (last_exception : option exn)
    : loop_exit * list event :=
  match todo with
  | O => (LoopEnd last_exception, [])
  | S todo' =>
      match except_clauses self (try_block (net attempt req)) with
      | Returns c => (LoopReturn c, [EvPost attempt req])
      | Break e => (LoopEnd (Some e), [EvPost attempt req])
      | NextAttempt e =>
          let '(x, tr) := attempts self net req retry_count todo' (S attempt) (Some e) in
          (x, EvPost attempt req :: tr)
      | Backoff e =>
          let '(x, tr) := attempts self net req retry_count todo' (S attempt) (Some e) in
          (x, EvPost attempt req :: backoff attempt retry_count ++ tr)
      end
  end.

(** Line 185: [raise last_exception or Exception(...)]. *)
Definition raise_last (last_exception : option exn) : exn :=
  match last_exception with
  | Some e => e
  | None => Exception (lit "Classification failed after all retries")
  end.

Definition build_request (self : ImageDetectionService)
    (image_data : list byte) (max_tokens : Z) (temperature : float) : Request :=
  let image_base64 := Base64.b64encode image_data in
  {| req_url := api_url self;
     req_json := _prepare_payload self image_base64 max_tokens temperature;
     req_headers := _get_headers self |}.

Definition classify_image (self : ImageDetectionService)
    (net : nat -> Request -> post_outcome)
    (image_data : list byte) (max_tokens : Z) (temperature : float)
    (retry_count : Z) : res str * list event :=
  match api_key self with
  | [] => (Err (Exception (lit "OpenRouter API key not configured")), [])
  | _ :: _ =>
      let req := build_request self image_data max_tokens temperature in
      match attempts self net req retry_count (Z.to_nat retry_count) 0 None with
      | (LoopReturn c, tr) => (Ok c, tr)
      | (LoopEnd last_exception, tr) => (Err (raise_last last_exception), tr)
      end
  end.

End Classify.

(* ===================================================================== *)
(** * [classify_batch] *)
(* ===================================================================== *)

(** The two dictionaries [classify_single] returns. *)
Inductive item : Type :=
| Classified (index : nat) (classification : str)
    (* {"index": index, "success": True, "classification": result} *)
| Failed (index : nat) (error : str).
    (* {"index": index, "success": False, "error": str(e)} *)

Definition index (r : item) : nat :=
  match r with
  | Classified i _ | Failed i _ => i
  end.

Definition success (r : item) : bool :=
  match r with
  | Classified _ _ => true
  | Failed _ _ => false
  end.

(** A task of [classify_batch]: the coroutine [classify_single(image_data, i)]
    before it holds the semaphore, while it holds it (the call of
    [classify_image] is in flight), and once it has returned. *)
Inductive task : Type :=
| Waiting (image_data : list byte) (index : nat)
| Running (image_data : list byte) (index : nat)
| Finished (r : item).

(** The semaphore's counter and the tasks, in the order given to [gather]. *)
Record batch : Type := {
  semaphore : Z;
  tasks : list task
}.

(** What the event loop does next. [Acquire t]: task [t] enters
    [async with semaphore]; [asyncio.Semaphore.acquire] lets it in when the
    counter is positive and takes one off. [Release t]: the body of task [t]
    ends, by either [return] of lines 209-219, and [__aexit__] calls
    [release], which adds one. The tasks share nothing else, so the result of
    a call is a function of its own image and of its own network answers.
    asyncio wakes waiting tasks in the order they arrived; the model admits
    them in any order, that one included. *)
Inductive action : Type :=
| Acquire (t : nat)
| Release (t : nat).

Definition is_running (t : task) : bool :=
  match t with
  | Running _ _ => true
  | _ => false
  end.

(** The number of calls of [classify_image] in flight. *)
Definition in_flight (ts : list task) : Z :=
  Z.of_nat (length (List.filter is_running ts)).

(** [enumerate(images_data)], one task each (lines 222-225). *)
Definition spawn (images_data : list (list byte)) : list task :=
  imap (fun i image_data => Waiting image_data i) images_data.

(** [asyncio.Semaphore(max_concurrent)] and the tasks, before any runs. *)
Definition start (images_data : list (list byte)) (max_concurrent : Z) : res batch :=
  if max_concurrent <? 0
  then Err (ValueError (lit "Semaphore initial value must be >= 0"))
  else Ok {| semaphore := max_concurrent; tasks := spawn images_data |}.

(** [asyncio.gather]: once every task is done, their results in the order
    of the tasks. *)
Fixpoint gather (ts : list task) : option (list item) :=
  match ts with
  | [] => Some []
  | Finished r :: ts' =>
      match gather ts' with
      | Some rs => Some (r :: rs)
      | None => None
      end
  | _ :: _ => None
  end.

Section Batch.

Variable str_float : float -> str.
Variable self : ImageDetectionService.
(** The network as the task of each index meets it. *)
Variable nets : nat -> nat -> Request -> post_outcome.

(** The body of [classify_single] inside [async with semaphore]
    (lines 207-219); [classify_image] is called with its defaults. *)
Definition classify_single (image_data : list byte) (index : nat) : item :=
  match fst (classify_image str_float self (nets index) image_data 50 0.1%float 3) with
  | Ok result => Classified index result
  | Err e => Failed index (str_exn e)
  end.

Definition step (a : action) (st : batch) : option batch :=
  match a with
  | Acquire t =>
      match tasks st !! t with
      | Some (Waiting image_data i) =>
          if 0 <? semaphore st
          then Some {| semaphore := semaphore st - 1;
                       tasks := <[t := Running image_data i]> (tasks st) |}
          else None
      | _ => None
      end
  | Release t =>
      match tasks st !! t with
      | Some (Running image_data i) =>
          Some {| semaphore := semaphore st + 1;
                  tasks := <[t := Finished (classify_single image_data i)]> (tasks st) |}
      | _ => None
      end
  end.

(** A schedule, run from a state; [None] when an action is not enabled. *)
Fixpoint run (schedule : list action) (st : batch) : option batch :=
  match schedule with
  | [] => Some st
  | a :: schedule' =>
      match step a st with
      | Some st' => run schedule' st'
      | None => None
      end
  end.

(** [classify_batch] under a schedule: the results, when the schedule runs
    every task to its end. *)
Definition classify_batch (images_data : list (list byte)) (max_concurrent : Z)
    (schedule : list action) : res (option (list item)) :=
  do st0 <- start images_data max_concurrent;
  Ok (match run schedule st0 with
      | Some st => gather (tasks st)
      | None => None
      end).

End Batch.

(* ===================================================================== *)
(** * Vocabulary of the statements *)
(* ===================================================================== *)

(** The exception an iteration stores in [last_exception], if any. *)
Definition recorded (x : after_try) : option exn :=
  match x with
  | Returns _ => None
  | NextAttempt e | Break e | Backoff e => Some e
  end.

(** The iteration failed and the loop goes on to the next one. *)
Definition retried (x : after_try) : bool :=
  match x with
  | NextAttempt _ | Backoff _ => true
  | Returns _ | Break _ => false
  end.

(** An exception that reaches the last clause, [except Exception as e]. *)
Definition generic (e : exn) : bool :=
  match e with
  | TimeoutException _ | RequestError _ => false
  | _ => true
  end.

Definition is_post (ev : event) : bool :=
  match ev with
  | EvPost _ _ => true
  | EvSleep _ => false
  end.

(** The number of requests sent, and the sleeps in order. *)
Definition posts (tr : list event) : nat := length (List.filter is_post tr).

Fixpoint sleeps (tr : list event) : list Z :=
  match tr with
  | [] => []
  | EvSleep z :: tr' => z :: sleeps tr'
  | EvPost _ _ :: tr' => sleeps tr'
  end.

(** A parsed body with the shape line 156 reads: an object whose ["choices"]
    is a list starting with an object whose ["message"] is an object whose
    ["content"] is the string [s]. *)
Definition well_formed (result : value) (s : str) : Prop :=
  exists d m rest b,
    result = JObj d /\
    Py.dict_get (lit "choices") d = Some (JArr (JObj m :: rest)) /\
    Py.dict_get (lit "message") m = Some (JObj b) /\
    Py.dict_get (lit "content") b = Some (JStr s).

(** A parsed body for which line 153 holds (no ["choices"] in it, or a
    falsy one), or whose first candidate's text is empty once stripped. *)
Inductive malformed : value -> Prop :=
| no_choices result :
    Py.contains_key (lit "choices") result = Ok false -> malformed result
| empty_choices result choices :
    Py.contains_key (lit "choices") result = Ok true ->
    Py.getitem result (lit "choices") = Ok choices ->
    Py.truthy choices = false ->
    malformed result
| empty_content result s :
    well_formed result s -> strip s = [] -> malformed result.

(** What a task has left to do: to acquire and to release, to release, or
    nothing. *)
Definition remaining_of (t : task) : nat :=
  match t with
  | Waiting _ _ => 2
  | Running _ _ => 1
  | Finished _ => 0
  end.

Fixpoint remaining (ts : list task) : nat :=
  match ts with
  | [] => 0
  | t :: ts' => remaining_of t + remaining ts'
  end.

(** The task made for the image [image_data] at position [i] is in one of
    its three states, and when finished holds the result of its own call. *)
Definition task_of (str_float : float -> str) (self : ImageDetectionService)
    (nets : nat -> nat -> Request -> post_outcome)
    (image_data : list byte) (i : nat) (t : task) : Prop :=
  t = Waiting image_data i \/
  t = Running image_data i \/
  t = Finished (classify_single str_float self nets image_data i).

(** The invariant of a batch of [images_data] under the cap [k]. *)
Definition consistent (str_float : float -> str) (self : ImageDetectionService)
    (nets : nat -> nat -> Request -> post_outcome)
    (images_data : list (list byte)) (k : Z) (st : batch) : Prop :=
  semaphore st + in_flight (tasks st) = k /\
  0 <= semaphore st /\
  length (tasks st) = length images_data /\
  forall i image_data,
    images_data !! i = Some image_data ->
    exists t, tasks st !! i = Some t /\ task_of str_float self nets image_data i t.

(** The result of each image's own call, in the order of the images. *)
Definition outcomes (str_float : float -> str) (self : ImageDetectionService)
    (nets : nat -> nat -> Request -> post_outcome)
    (images_data : list (list byte)) : list item :=
  imap (fun i image_data => classify_single str_float self nets image_data i)
       images_data.

(** ** Scenarios *)

Definition demo_settings : Settings :=
  {| OPENROUTER_API_KEY := lit "sk-test";
     OPENROUTER_URL := lit "https://openrouter.ai/api/v1/chat/completions";
     DEFAULT_MODEL := lit "qwen/qwen2.5-vl-32b-instruct:free";
     APP_NAME := lit "Image Classification API";
     REQUEST_TIMEOUT := 30%float |}.

Definition demo_service : ImageDetectionService := init demo_settings.

(** [str] of the one float the scenarios format, the timeout 30.0. *)
Definition demo_str_float (f : float) : str := lit "30.0".

Definition demo_image : list byte := [x4d; x61; x6e].

Definition demo_request : Request :=
  build_request demo_service demo_image 50 0.1%float.

Definition respond (status : Z) (body : str) (parsed : res value) : post_outcome :=
  Responds {| status_code := status; text := body; json := parsed |}.

Definition not_json : res value := Err (OtherError (lit "Expecting value: line 1 column 1 (char 0)")).

Definition completion (s : str) : value :=
  JObj [(lit "choices",
         JArr [JObj [(lit "message", JObj [(lit "content", JStr s)])]])].

Definition response_200_cat : post_outcome :=
  respond 200 (lit "{...}") (Ok (completion (lit " cat "))).

Definition response_503 : post_outcome :=
  respond 503 (lit "Service Unavailable") not_json.

Definition response_404 : post_outcome :=
  respond 404 (lit "Not Found") not_json.

Definition response_401 : post_outcome :=
  respond 401 (lit "Unauthorized") not_json.

Definition response_200_no_choices : post_outcome :=
  respond 200 (lit "{}") (Ok (JObj [])).

(** Two 503 responses, then a 200 with a well-formed body. *)
Definition net_503_503_200 (attempt : nat) (_ : Request) : post_outcome :=
  match attempt with
  | 0%nat | 1%nat => response_503
  | _ => response_200_cat
  end.

Definition net_always (o : post_outcome) (_ : nat) (_ : Request) : post_outcome := o.

(** A batch of three images under a cap of two; the network fails the
    second image with a 503 on every attempt and answers the others. *)
Definition demo_images : list (list byte) := [demo_image; [x01]; []].

Definition demo_nets (i : nat) : nat -> Request -> post_outcome :=
  match i with
  | 1%nat => net_always response_503
  | _ => net_always response_200_cat
  end.

Definition demo_schedule : list action :=
  [Acquire 2; Acquire 0; Release 0; Acquire 1; Release 2; Release 1].

Definition demo_results : list item :=
  [Classified 0 (lit "cat");
   Failed 1 (lit "API error 503: Service Unavailable");
   Classified 2 (lit "cat")].

(* ===================================================================== *)
(** * The rest of the service, the configuration and the routes *)
(* ===================================================================== *)

(** ** [app/config/config.py]: the validators of [Settings] *)

Definition placeholder_key : str := lit "your-openrouter-api-key-here".

(** [Settings.validate_api_key] (lines 107-115). *)
Definition validate_api_key (v : str) : res str :=
  if match v with [] => true | _ :: _ => false end || Py.str_eqb v placeholder_key
  then Err (ValueError (lit "OpenRouter API key must be provided. "
                        ++ lit "Get one from https://openrouter.ai and set it in .env file"))
  else Ok v.

(** [Settings.validate_file_size] (lines 117-122). *)
Definition validate_file_size (v : Z) : res Z :=
  if 10 * 1024 * 1024 <? v
  then Err (ValueError (lit "Maximum file size should not exceed 10MB"))
  else Ok v.

(** ** [ImageDetectionService.test_connection] *)

Definition models_url : str := lit "https://openrouter.ai/api/v1/models".

(** Lines 25-38; [get] is what [client.get(url, headers=...)] does. *)
Definition test_connection (self : ImageDetectionService)
    (get : str -> list (str * str) -> post_outcome) : bool :=
  match get models_url (_get_headers self) with
  | Responds response => status_code response =? 200
  | Throws e => false
  end.

(** ** [image_detection_router.py] *)

(** What a route does: it returns a body, or raises [HTTPException]. *)
Inductive http (A : Type) : Type :=
| Returned (body : A)
| HTTPException (code : Z) (detail : str).
Arguments Returned {A} body.
Arguments HTTPException {A} code detail.

(** The fields of a FastAPI [UploadFile] the routes read, with the bytes
    [await file.read()] gives. *)
Module UploadFile.
Record t : Type := {
  filename : option str;
  content_type : option str;
  size : option Z;
  read : list byte
}.
End UploadFile.

(** The routes. The two fields that are read from the clock
    ([processing_time], [timestamp]) are left out of the bodies. *)
Module Router.

Record HealthCheckResponse : Type := {
  status : str;
  message : str;
  version : str;
  models_available : bool
}.

(** [health_check] (lines 34-51). [test_connection] raises nothing, so the
    [except] clause has nothing to catch. *)
Definition health_check (image_service : ImageDetectionService)
    (get : str -> list (str * str) -> post_outcome) : http HealthCheckResponse :=
  let models_available := test_connection image_service get in
  Returned
    {| status := if models_available then lit "healthy" else lit "degraded";
       message := if models_available
                  then lit "Image Detection Service is running"
                  else lit "Service running but API connection issue";
       version := lit "1.0.0";
       models_available := models_available |}.

(** [not file.content_type or not file.content_type.startswith("image/")],
    negated. *)
Definition is_image (file : UploadFile.t) : bool :=
  match UploadFile.content_type file with
  | None => false
  | Some [] => false
  | Some (c :: ct) => startswith (lit "image/") (c :: ct)
  end.

(** An entry of [batch_results] (lines 159-163, 172-178, 181-185). *)
Inductive entry : Type :=
| Success (filename : option str) (classification : str) (file_size : nat)
| Failure (filename : option str) (error : str).

Definition entry_success (r : entry) : bool :=
  match r with
  | Success _ _ _ => true
  | Failure _ _ => false
  end.

Definition entry_filename (r : entry) : option str :=
  match r with
  | Success f _ _ | Failure f _ => f
  end.

Record BatchResponse : Type := {
  batch_results : list entry;
  total_files : nat;
  successful : nat;
  failed : nat
}.

Section Routes.

Variable str_float : float -> str.
Variable image_service : ImageDetectionService.

(** One iteration of the loop of [classify_batch_images] (lines 153-185),
    against the network as this call of the service meets it. *)
Definition classify_file (net : nat -> Request -> post_outcome)
    (file : UploadFile.t) : entry * list event :=
  if negb (is_image file)
  then (Failure (UploadFile.filename file) (lit "Not a valid image file"), [])
  else
    let image_data := UploadFile.read file in
    match classify_image str_float image_service net image_data 50 0.1%float 3 with
    | (Ok classification, tr) =>
        (Success (UploadFile.filename file) classification (length image_data), tr)
    | (Err e, tr) => (Failure (UploadFile.filename file) (str_exn e), tr)
    end.

(** [for file in files], the file at position [i] first. *)
Fixpoint classify_files (nets : nat -> nat -> Request -> post_outcome)
    (files : list UploadFile.t) (i : nat) : list entry * list event :=
  match files with
  | [] => ([], [])
  | file :: files' =>
      let '(r, tr) := classify_file (nets i) file in
      let '(results, tr') := classify_files nets files' (S i) in
      (r :: results, tr ++ tr')
  end.

(** [classify_batch_images] (lines 136-193). *)
Definition classify_batch_images (nets : nat -> nat -> Request -> post_outcome)
    (files : list UploadFile.t) : http BatchResponse * list event :=
  if (10 <? length files)%nat
  then (HTTPException 400 (lit "Maximum 10 files allowed in batch processing"), [])
  else
    let '(results, tr) := classify_files nets files 0 in
    (Returned
       {| batch_results := results;
          total_files := length files;
          successful := length (List.filter entry_success results);
          failed := length (List.filter (fun r => negb (entry_success r)) results) |},
     tr).

(** Lines 95-96 and 104: the [max_tokens] the service is called with. *)
Definition effective_max_tokens (max_tokens : option Z) : Z :=
  let max_tokens :=
    match max_tokens with
    | Some m =>
        if negb (m =? 0) && ((m <? 10) || (500 <? m)) then Some 50 else Some m
    | None => None
    end in
  match max_tokens with
  | Some m => if m =? 0 then 50 else m
  | None => 50
  end.

(** Lines 98-99 and 105: the [temperature] the service is called with. *)
Definition effective_temperature (temperature : option float) : float :=
  let temperature :=
    match temperature with
    | Some t =>
        if negb (PrimFloat.eqb t 0%float)
           && (PrimFloat.ltb t 0%float || PrimFloat.ltb 1%float t)
        then Some 0.1%float else Some t
    | None => None
    end in
  match temperature with
  | Some t => if PrimFloat.eqb t 0%float then 0.1%float else t
  | None => 0.1%float
  end.

Record ImageClassificationResponse : Type := {
  success : bool;
  classification : str;
  filename : str;
  file_size : nat
}.

(** [file.size and file.size > 5 * 1024 * 1024]. *)
Definition too_large (file : UploadFile.t) : bool :=
  match UploadFile.size file with
  | Some n => negb (n =? 0) && (5 * 1024 * 1024 <? n)
  | None => false
  end.

(** The route [classify_image] (lines 60-128). *)
Definition classify_image (net : nat -> Request -> post_outcome)
    (file : UploadFile.t) (max_tokens : option Z) (temperature : option float)
    : http ImageClassificationResponse * list event :=
  if negb (is_image file)
  then (HTTPException 400 (lit "File must be an image (JPEG, PNG, GIF, WebP)"), [])
  else if too_large file
  then (HTTPException 400 (lit "Image file too large. Maximum size is 5MB"), [])
  else
    let image_data := UploadFile.read file in
    let file_size := length image_data in
    match classify_image str_float image_service net image_data
            (effective_max_tokens max_tokens)
            (effective_temperature temperature) 3 with
    | (Ok classification_result, tr) =>
        (Returned
           {| success := true;
              classification := classification_result;
              filename := match UploadFile.filename file with
                          | Some (c :: name) => c :: name
                          | _ => lit "unknown"
                          end;
              file_size := file_size |},
         tr)
    | (Err e, tr) =>
        (HTTPException 500 (lit "Failed to classify image: " ++ str_exn e), tr)
    end.

End Routes.

End Router.

(** The numbers below [n], to check a fact about bytes or sextets on each. *)
Definition below (n : nat) : list N := List.map N.of_nat (seq 0 n).

Definition holds_below (n : nat) (P : N -> N -> bool) : bool :=
  forallb (fun a => forallb (P a) (below n)) (below n).

(** Sums, for the total time slept. *)
Fixpoint total (zs : list Z) : Z :=
  match zs with
  | [] => 0
  | z :: zs' => z + total zs'
  end.

(* ===================================================================== *)
(** * Facts about strings *)
(* ===================================================================== *)

Lemma startswith_app (p a b : str) :
  startswith p a = true -> startswith p (a ++ b) = true.
Proof.
  revert a. induction p as [|c p IH]; intros [|x a]; simpl; try easy.
  intros H. apply andb_true_iff in H as [Hc Hp].
  rewrite Hc. simpl. now apply IH.
Qed.

Lemma contains_app_l (n a b : str) :
  contains n a = true -> contains n (a ++ b) = true.
Proof.
  induction a as [|x a IH]; simpl.
  - rewrite orb_false_r. intros H. destruct n; [|discriminate].
    destruct b; reflexivity.
  - intros H. apply orb_true_iff in H as [H|H].
    + change (x :: a ++ b) with ((x :: a) ++ b).
      rewrite (startswith_app _ _ _ H). reflexivity.
    + rewrite (IH H). apply orb_true_r.
Qed.

Lemma contains_app_r (n a b : str) :
  contains n b = true -> contains n (a ++ b) = true.
Proof.
  intros H. induction a as [|x a IH]; simpl; [exact H|].
  rewrite IH. apply orb_true_r.
Qed.

(* ===================================================================== *)
(** * Facts about one attempt *)
(* ===================================================================== *)

Lemma extract_well_formed (result : value) (s : str) :
  well_formed result s ->
  extract result =
    match strip s with
    | [] => Err (Exception (lit "Empty classification result"))
    | c :: cs => Ok (c :: cs)
    end.
Proof.
  intros (d & m & rest & b & -> & Hc & Hm & Hb).
  unfold extract. simpl. rewrite Hc. simpl. rewrite Hm. simpl. rewrite Hb. simpl.
  destruct (strip s); reflexivity.
Qed.

Lemma extract_malformed (result : value) :
  malformed result ->
  extract result = Err (Exception (lit "Invalid response format from API")) \/
  extract result = Err (Exception (lit "Empty classification result")).
Proof.
  intros [r H | r c H Hg Hc | r s Hw Hs].
  - left. unfold extract. rewrite H. reflexivity.
  - left. unfold extract. rewrite H. simpl. rewrite Hg. simpl. rewrite Hc.
    reflexivity.
  - right. rewrite (extract_well_formed _ _ Hw), Hs. reflexivity.
Qed.

Lemma extract_nonempty (result : value) (c : str) :
  extract result = Ok c -> c <> [].
Proof.
  unfold extract.
  destruct (Py.contains_key (lit "choices") result) as [has|]; simpl; [|discriminate].
  destruct (if negb has then Ok true else _) as [[|]|]; simpl; try discriminate.
  destruct (Py.getitem result (lit "choices")) as [ch|]; simpl; [|discriminate].
  destruct (Py.getitem0 ch) as [f|]; simpl; [|discriminate].
  destruct (Py.getitem f (lit "message")) as [m|]; simpl; [|discriminate].
  destruct (Py.getitem m (lit "content")) as [b|]; simpl; [|discriminate].
  destruct (Py.strip_method b) as [[|x xs]|]; simpl; try discriminate.
  intros [= <-]. discriminate.
Qed.

Lemma try_block_return_nonempty (o : post_outcome) (c : str) :
  try_block o = Return c -> c <> [].
Proof.
  destruct o as [r|e]; simpl; [|discriminate].
  destruct (negb (status_code r =? 200)).
  - destruct (_ && _); discriminate.
  - destruct (json r) as [v|]; simpl; [|discriminate].
    destruct (extract v) eqn:E; [|discriminate].
    intros [= <-]. exact (extract_nonempty _ _ E).
Qed.

(* ===================================================================== *)
(** * Facts about the retry loop *)
(* ===================================================================== *)

Section Loop.

Variable str_float : float -> str.
Variable self : ImageDetectionService.
Variable net : nat -> Request -> post_outcome.
Variable req : Request.
Variable retry_count : Z.

Let outcome (attempt : nat) : after_try :=
  except_clauses str_float self (try_block (net attempt req)).

Let loop := attempts str_float self net req retry_count.

Lemma except_clauses_generic (e : exn) :
  generic e = true ->
  except_clauses str_float self (Raise e) =
    if has_client_code (str_exn e) then Break e else Backoff e.
Proof. destruct e; simpl; intros H; try discriminate; reflexivity. Qed.

Lemma loop_returns (todo attempt : nat) (last : option exn) (c : str) :
  outcome attempt = Returns c ->
  loop (S todo) attempt last = (LoopReturn c, [EvPost attempt req]).
Proof. unfold loop, outcome. simpl. intros ->. reflexivity. Qed.

Lemma loop_breaks (todo attempt : nat) (last : option exn) (e : exn) :
  outcome attempt = Break e ->
  loop (S todo) attempt last = (LoopEnd (Some e), [EvPost attempt req]).
Proof. unfold loop, outcome. simpl. intros ->. reflexivity. Qed.

Lemma loop_continues (todo attempt : nat) (last : option exn) (e : exn) :
  outcome attempt = NextAttempt e ->
  loop (S todo) attempt last =
    (fst (loop todo (S attempt) (Some e)),
     EvPost attempt req :: snd (loop todo (S attempt) (Some e))).
Proof.
  unfold loop, outcome. simpl. intros ->.
  destruct (attempts _ _ _ _ _ todo _ _). reflexivity.
Qed.

Lemma loop_backs_off (todo attempt : nat) (last : option exn) (e : exn) :
  outcome attempt = Backoff e ->
  loop (S todo) attempt last =
    (fst (loop todo (S attempt) (Some e)),
     EvPost attempt req :: backoff attempt retry_count
       ++ snd (loop todo (S attempt) (Some e))).
Proof.
  unfold loop, outcome. simpl. intros ->.
  destruct (attempts _ _ _ _ _ todo _ _). reflexivity.
Qed.

(** The loop sends at most one request per iteration. *)
Lemma loop_posts_bound (todo attempt : nat) (last : option exn) :
  (posts (snd (loop todo attempt last)) <= todo)%nat.
Proof.
  revert attempt last. induction todo as [|todo IH]; intros attempt last.
  - unfold loop, posts. simpl. lia.
  - destruct (outcome attempt) as [c|e|e|e] eqn:E.
    + rewrite (loop_returns _ _ _ _ E). simpl. unfold posts. simpl. lia.
    + rewrite (loop_continues _ _ _ _ E). simpl.
      specialize (IH (S attempt) (Some e)). unfold posts in *. simpl. lia.
    + rewrite (loop_breaks _ _ _ _ E). unfold posts. simpl. lia.
    + rewrite (loop_backs_off _ _ _ _ E). simpl.
      specialize (IH (S attempt) (Some e)). unfold posts, backoff in *. simpl.
      destruct (_ <? _); simpl; lia.
Qed.

(** A classification the loop returns is never empty. *)
Lemma loop_return_nonempty (todo attempt : nat) (last : option exn) (c : str) :
  fst (loop todo attempt last) = LoopReturn c -> c <> [].
Proof.
  revert attempt last. induction todo as [|todo IH]; intros attempt last.
  - unfold loop. simpl. discriminate.
  - destruct (outcome attempt) as [c'|e|e|e] eqn:E.
    + rewrite (loop_returns _ _ _ _ E). simpl. intros [= <-].
      unfold outcome in E.
      destruct (try_block (net attempt req)) as [c''| |e'] eqn:T; simpl in E.
      * injection E as <-. exact (try_block_return_nonempty _ _ T).
      * discriminate.
      * destruct e'; simpl in E; try discriminate;
          destruct (has_client_code _); discriminate.
    + rewrite (loop_continues _ _ _ _ E). simpl. apply IH.
    + rewrite (loop_breaks _ _ _ _ E). simpl. discriminate.
    + rewrite (loop_backs_off _ _ _ _ E). simpl. apply IH.
Qed.

(** When every iteration fails and is retried, the loop runs to its end,
    sends one request per iteration and ends with the failure of the last. *)
Lemma loop_all_retried (todo attempt : nat) (last : option exn) :
  (forall a, (attempt <= a < attempt + todo)%nat -> retried (outcome a) = true) ->
  fst (loop todo attempt last) =
    LoopEnd (match todo with
             | O => last
             | S n => recorded (outcome (attempt + n))
             end) /\
  posts (snd (loop todo attempt last)) = todo.
Proof.
  revert attempt last. induction todo as [|todo IH]; intros attempt last H.
  - split; reflexivity.
  - assert (Hr : retried (outcome attempt) = true) by (apply H; lia).
    assert (Hrest : forall a, (S attempt <= a < S attempt + todo)%nat ->
                              retried (outcome a) = true)
      by (intros a Ha; apply H; lia).
    destruct (outcome attempt) as [c|e|e|e] eqn:E; try discriminate.
    + rewrite (loop_continues _ _ _ _ E). simpl.
      destruct (IH (S attempt) (Some e) Hrest) as [-> Hp]. split.
      * destruct todo as [|n].
        -- rewrite Nat.add_0_r, E. reflexivity.
        -- replace (attempt + S n)%nat with (S attempt + n)%nat by lia. reflexivity.
      * unfold posts in *. simpl. rewrite Hp. reflexivity.
    + rewrite (loop_backs_off _ _ _ _ E). simpl.
      destruct (IH (S attempt) (Some e) Hrest) as [-> Hp]. split.
      * destruct todo as [|n].
        -- rewrite Nat.add_0_r, E. reflexivity.
        -- replace (attempt + S n)%nat with (S attempt + n)%nat by lia. reflexivity.
      * unfold posts, backoff in *. simpl.
        destruct (_ <? _); simpl; rewrite Hp; reflexivity.
Qed.

(** The loop ends with no recorded failure only when it made no iteration. *)
Lemma loop_end_none (todo attempt : nat) (last : option exn) (tr : list event) :
  loop todo attempt last = (LoopEnd None, tr) ->
  todo = O /\ last = None /\ tr = [].
Proof.
  revert attempt last tr. induction todo as [|todo IH]; intros attempt last tr.
  - unfold loop. simpl. intros [= -> <-]. auto.
  - destruct (outcome attempt) as [c|e|e|e] eqn:E.
    + rewrite (loop_returns _ _ _ _ E). discriminate.
    + rewrite (loop_continues _ _ _ _ E). intros [= H1 H2].
      destruct (loop todo (S attempt) (Some e)) as [x t] eqn:L. simpl in H1. subst x.
      apply IH in L as (_ & L & _). discriminate.
    + rewrite (loop_breaks _ _ _ _ E). discriminate.
    + rewrite (loop_backs_off _ _ _ _ E). intros [= H1 H2].
      destruct (loop todo (S attempt) (Some e)) as [x t] eqn:L. simpl in H1. subst x.
      apply IH in L as (_ & L & _). discriminate.
Qed.

(** Every sleep of the loop lasts [2 ** attempt] seconds for an attempt
    that is not the last one. *)
Lemma loop_sleeps (todo attempt : nat) (last : option exn) :
  Forall (fun z => exists a : nat,
                     z = 2 ^ Z.of_nat a /\ Z.of_nat a < retry_count - 1)
         (sleeps (snd (loop todo attempt last))).
Proof.
  revert attempt last. induction todo as [|todo IH]; intros attempt last.
  - unfold loop. simpl. constructor.
  - destruct (outcome attempt) as [c|e|e|e] eqn:E.
    + rewrite (loop_returns _ _ _ _ E). simpl. constructor.
    + rewrite (loop_continues _ _ _ _ E). simpl. apply IH.
    + rewrite (loop_breaks _ _ _ _ E). simpl. constructor.
    + rewrite (loop_backs_off _ _ _ _ E). simpl. unfold backoff.
      destruct (Z.of_nat attempt <? retry_count - 1) eqn:Hlt; simpl.
      * constructor; [|apply IH]. exists attempt. split; [reflexivity|lia].
      * apply IH.
Qed.

End Loop.

(** The network's answers decide the result; the request only shows in the
    [EvPost] events. *)
Lemma attempts_request_irrelevant (str_float : float -> str)
    (self : ImageDetectionService) (net : nat -> Request -> post_outcome)
    (retry_count : Z) (req1 req2 : Request) (todo attempt : nat)
    (last : option exn) :
  (forall n r1 r2, net n r1 = net n r2) ->
  fst (attempts str_float self net req1 retry_count todo attempt last) =
  fst (attempts str_float self net req2 retry_count todo attempt last) /\
  sleeps (snd (attempts str_float self net req1 retry_count todo attempt last)) =
  sleeps (snd (attempts str_float self net req2 retry_count todo attempt last)).
Proof.
  intros Hnet. revert attempt last.
  induction todo as [|todo IH]; intros attempt last; [split; reflexivity|].
  simpl. rewrite (Hnet attempt req1 req2).
  destruct (except_clauses str_float self (try_block (net attempt req2)))
    as [c|e|e|e]; try (split; reflexivity).
  - specialize (IH (S attempt) (Some e)).
    destruct (attempts _ _ _ req1 _ todo _ _), (attempts _ _ _ req2 _ todo _ _).
    simpl in *. exact IH.
  - specialize (IH (S attempt) (Some e)).
    destruct (attempts _ _ _ req1 _ todo _ _), (attempts _ _ _ req2 _ todo _ _).
    simpl in *. destruct IH as [-> IH]. split; [reflexivity|].
    unfold backoff. destruct (_ <? _); simpl; rewrite IH; reflexivity.
Qed.

(** X2. [classify_image] sends at most [retry_count] requests. *)
Lemma classify_image_attempt_bound (str_float : float -> str)
    (self : ImageDetectionService) (net : nat -> Request -> post_outcome)
    (image_data : list byte) (max_tokens : Z) (temperature : float)
    (retry_count : Z) :
  (posts (snd (classify_image str_float self net image_data max_tokens
                 temperature retry_count)) <= Z.to_nat retry_count)%nat.
Proof.
  unfold classify_image. destruct (api_key self); [unfold posts; simpl; lia|].
  pose proof (loop_posts_bound str_float self net
                (build_request self image_data max_tokens temperature)
                retry_count (Z.to_nat retry_count) 0 None) as H.
  destruct (attempts _ _ _ _ _ _ _ _) as [[c|l] tr]; exact H.
Qed.

(** X1. A response 400, 401 or 403 ends the loop at once: the message built on
    line 138 holds the status in digits, which line 176 finds. *)
Lemma status_400_401_403_single_attempt (str_float : float -> str)
    (self : ImageDetectionService) (net : nat -> Request -> post_outcome)
    (image_data : list byte) (max_tokens : Z) (temperature : float)
    (retry_count : Z) (r : Response) :
  api_key self <> [] -> 0 < retry_count ->
  net 0%nat (build_request self image_data max_tokens temperature) = Responds r ->
  status_code r = 400 \/ status_code r = 401 \/ status_code r = 403 ->
  classify_image str_float self net image_data max_tokens temperature retry_count =
    (Err (Exception (error_msg r)),
     [EvPost 0 (build_request self image_data max_tokens temperature)]).
Proof.
  intros Hkey Hrc Hnet Hst. unfold classify_image.
  destruct (api_key self) as [|k ks]; [congruence|].
  destruct (Z.to_nat retry_count) as [|todo] eqn:Hn; [lia|].
  assert (Hc : has_client_code (error_msg r) = true).
  { unfold has_client_code, error_msg.
    rewrite app_assoc.
    destruct Hst as [H|[H|H]]; rewrite H.
    - rewrite (contains_app_l (lit "400")); [reflexivity|vm_compute; reflexivity].
    - rewrite (contains_app_l (lit "401")); [|vm_compute; reflexivity].
      rewrite orb_true_r. reflexivity.
    - rewrite (contains_app_l (lit "403")); [|vm_compute; reflexivity].
      apply orb_true_r. }
  rewrite (loop_breaks str_float self net _ retry_count todo 0 None
             (Exception (error_msg r))); [reflexivity|].
  rewrite Hnet. simpl.
  assert (Hb : negb (status_code r =? 200) = true
               /\ (400 <=? status_code r) && (status_code r <? 500) = true).
  { destruct Hst as [H|[H|H]]; rewrite H; split; reflexivity. }
  destruct Hb as [-> ->]. simpl. rewrite Hc. reflexivity.
Qed.

Lemma status_401_single_attempt_witness :
  classify_image demo_str_float demo_service (net_always response_401)
    demo_image 50 0.1%float 3
  = (Err (Exception (lit "API error 401: Unauthorized")), [EvPost 0 demo_request]).
Proof.
  refine (status_400_401_403_single_attempt demo_str_float demo_service
            (net_always response_401) demo_image 50 0.1%float 3
            {| status_code := 401; text := lit "Unauthorized"; json := not_json |}
            _ _ _ _).
  - discriminate.
  - reflexivity.
  - reflexivity.
  - right; left; reflexivity.
Defined.

(* ===================================================================== *)
(** * The claims about [classify_image] *)
(* ===================================================================== *)

(** C9. With no API key configured ([self.api_key] empty), [classify_image]
    raises at once the exception of line 109, [Exception("OpenRouter API key
    not configured")] (the ConfigurationError of the specification), whatever
    the image, the network and [retry_count]: nothing was encoded into a
    request, no request was sent, no attempt or sleep was made. *)
Theorem missing_api_key_fails_before_any_request
    (str_float : float -> str) (self : ImageDetectionService)
    (net : nat -> Request -> post_outcome) (image_data : list byte)
    (max_tokens : Z) (temperature : float) (retry_count : Z) :
  api_key self = [] ->
  classify_image str_float self net image_data max_tokens temperature retry_count
  = (Err (Exception (lit "OpenRouter API key not configured")), []).
Proof. unfold classify_image. intros ->. reflexivity. Qed.

Lemma missing_api_key_witness :
  api_key (init {| OPENROUTER_API_KEY := [];
                   OPENROUTER_URL := lit "u"; DEFAULT_MODEL := lit "m";
                   APP_NAME := lit "a"; REQUEST_TIMEOUT := 30%float |}) = [] /\
  classify_image demo_str_float
    (init {| OPENROUTER_API_KEY := [];
             OPENROUTER_URL := lit "u"; DEFAULT_MODEL := lit "m";
             APP_NAME := lit "a"; REQUEST_TIMEOUT := 30%float |})
    (net_always response_200_cat) demo_image 50 0.1%float 3
  = (Err (Exception (lit "OpenRouter API key not configured")), []).
Proof.
  split; [reflexivity|].
  apply missing_api_key_fails_before_any_request. reflexivity.
Defined.

(** C10. [classify_image] does not look at [image_data]: with a key
    configured and at least one attempt allowed, for every blob, the empty one
    included, its first effect is the request whose image part is
    ["data:image/jpeg;base64," + b64encode(image_data)]; the empty blob is
    encoded to the empty string and sent like any other; and against a network
    whose answers do not depend on the request, the result and the sleeps for
    any blob are those for the empty blob. *)
Theorem classify_image_does_not_validate_image_data
    (str_float : float -> str) (self : ImageDetectionService)
    (net : nat -> Request -> post_outcome) (image_data : list byte)
    (max_tokens : Z) (temperature : float) (retry_count : Z) :
  api_key self <> [] -> 0 < retry_count ->
  (exists tr,
     snd (classify_image str_float self net image_data max_tokens temperature
            retry_count)
     = EvPost 0 (build_request self image_data max_tokens temperature) :: tr) /\
  messages (req_json (build_request self image_data max_tokens temperature))
  = [ {| role := lit "user";
         content := [ TextPart prompt;
                      ImageUrlPart (lit "data:image/jpeg;base64,"
                                    ++ Base64.b64encode image_data) ] |} ] /\
  Base64.b64encode [] = [] /\
  ((forall n r1 r2, net n r1 = net n r2) ->
   fst (classify_image str_float self net image_data max_tokens temperature
          retry_count)
   = fst (classify_image str_float self net [] max_tokens temperature
            retry_count) /\
   sleeps (snd (classify_image str_float self net image_data max_tokens
                  temperature retry_count))
   = sleeps (snd (classify_image str_float self net [] max_tokens temperature
                    retry_count))).
Proof.
  intros Hkey Hrc. repeat split; try reflexivity.
  - unfold classify_image. destruct (api_key self) as [|k ks]; [congruence|].
    destruct (Z.to_nat retry_count) as [|todo] eqn:Hn; [lia|].
    simpl.
    destruct (except_clauses _ _ _) as [c|e|e|e].
    + eexists. reflexivity.
    + destruct (attempts _ _ _ _ _ todo _ _) as [[c|l] tr]; eexists; reflexivity.
    + eexists. reflexivity.
    + destruct (attempts _ _ _ _ _ todo _ _) as [[c|l] tr]; eexists; reflexivity.
  - unfold classify_image. destruct (api_key self) as [|k ks]; [congruence|].
    pose proof (attempts_request_irrelevant str_float self net retry_count
                  (build_request self image_data max_tokens temperature)
                  (build_request self [] max_tokens temperature)
                  (Z.to_nat retry_count) 0 None H) as [H1 _].
    destruct (attempts _ _ _ (build_request self image_data _ _) _ _ _ _) as [x1 t1],
             (attempts _ _ _ (build_request self [] _ _) _ _ _ _) as [x2 t2].
    simpl in H1. subst x2. destruct x1; reflexivity.
  - unfold classify_image. destruct (api_key self) as [|k ks]; [congruence|].
    pose proof (attempts_request_irrelevant str_float self net retry_count
                  (build_request self image_data max_tokens temperature)
                  (build_request self [] max_tokens temperature)
                  (Z.to_nat retry_count) 0 None H) as [H1 H2].
    destruct (attempts _ _ _ (build_request self image_data _ _) _ _ _ _) as [x1 t1],
             (attempts _ _ _ (build_request self [] _ _) _ _ _ _) as [x2 t2].
    simpl in H1, H2. subst x2. destruct x1; exact H2.
Qed.

Lemma classify_image_empty_blob_witness :
  exists tr,
    snd (classify_image demo_str_float demo_service (net_always response_200_cat)
           [] 50 0.1%float 3)
    = EvPost 0 (build_request demo_service [] 50 0.1%float) :: tr.
Proof.
  apply (classify_image_does_not_validate_image_data demo_str_float demo_service
           (net_always response_200_cat) [] 50 0.1%float 3).
  - discriminate.
  - reflexivity.
Defined.

(** C2. A 200 response whose parsed body has no ["choices"], an empty
    ["choices"], or a first candidate whose stripped text is empty makes the
    attempt raise a plain [Exception] (whose fixed text holds none of "400",
    "401", "403"). Any exception that reaches the last
    [except] clause (these among them) is stored in [last_exception]; when its
    text holds "400", "401" or "403" the loop is left at once, with no sleep
    and no further request; otherwise the loop sleeps as after a timeout and
    goes on to the next attempt. *)
Theorem malformed_200_retried_unless_client_digits
    (str_float : float -> str) (self : ImageDetectionService)
    (net : nat -> Request -> post_outcome) (req : Request)
    (retry_count : Z) (todo attempt : nat) (last : option exn) :
  (forall r result,
     net attempt req = Responds r -> status_code r = 200 ->
     json r = Ok result -> malformed result ->
     exists msg,
       try_block (net attempt req) = Raise (Exception msg) /\
       has_client_code msg = false) /\
  (forall e,
     try_block (net attempt req) = Raise e -> generic e = true ->
     attempts str_float self net req retry_count (S todo) attempt last =
       if has_client_code (str_exn e)
       then (LoopEnd (Some e), [EvPost attempt req])
       else
         (fst (attempts str_float self net req retry_count todo (S attempt) (Some e)),
          EvPost attempt req :: backoff attempt retry_count
            ++ snd (attempts str_float self net req retry_count todo (S attempt)
                      (Some e)))) /\
  (forall m,
     try_block (net attempt req) = Raise (TimeoutException m) ->
     exists e',
       attempts str_float self net req retry_count (S todo) attempt last =
         (fst (attempts str_float self net req retry_count todo (S attempt) (Some e')),
          EvPost attempt req :: backoff attempt retry_count
            ++ snd (attempts str_float self net req retry_count todo (S attempt)
                      (Some e')))).
Proof.
  split; [|split].
  - intros r result Hnet Hst Hjson Hmal. rewrite Hnet. simpl.
    rewrite Hst, Hjson. simpl.
    destruct (extract_malformed _ Hmal) as [-> | ->];
      eexists; split; reflexivity.
  - intros e Htry Hgen.
    pose proof (except_clauses_generic str_float self e Hgen) as Hex.
    destruct (has_client_code (str_exn e)).
    + apply loop_breaks. rewrite Htry. exact Hex.
    + apply loop_backs_off. rewrite Htry. exact Hex.
  - intros m Htry. eexists. apply loop_backs_off. rewrite Htry. reflexivity.
Qed.

Lemma malformed_200_retried_witness :
  exists msg,
    try_block (net_always response_200_no_choices 0%nat demo_request)
    = Raise (Exception msg) /\
    has_client_code msg = false.
Proof.
  refine (proj1 (malformed_200_retried_unless_client_digits demo_str_float
            demo_service (net_always response_200_no_choices) demo_request 3
            2 0 None)
            {| status_code := 200; text := lit "{}"; json := Ok (JObj []) |}
            (JObj []) _ _ _ _).
  - reflexivity.
  - reflexivity.
  - reflexivity.
  - apply no_choices. reflexivity.
Defined.

(** C4. With a key configured and [retry_count] positive, when every one of
    the [retry_count] attempts fails and is retried (a 5xx or unknown status,
    a timeout, a transport error, or an exception the loop does not stop
    on), [classify_image] sends [retry_count] requests and raises the failure
    recorded by the last attempt, not the generic one. Line 185 finds
    [last_exception] unset, and so raises the generic "Classification failed
    after all retries", only when the loop made no iteration at all. *)
Theorem exhausted_retries_surface_last_failure
    (str_float : float -> str) (self : ImageDetectionService)
    (net : nat -> Request -> post_outcome) (image_data : list byte)
    (max_tokens : Z) (temperature : float) (retry_count : Z) :
  let req := build_request self image_data max_tokens temperature in
  let outcome := fun a => except_clauses str_float self (try_block (net a req)) in
  (api_key self <> [] -> 0 < retry_count ->
   (forall a, (a < Z.to_nat retry_count)%nat -> retried (outcome a) = true) ->
   exists e tr,
     recorded (outcome (Z.to_nat retry_count - 1)%nat) = Some e /\
     classify_image str_float self net image_data max_tokens temperature
       retry_count = (Err e, tr) /\
     posts tr = Z.to_nat retry_count) /\
  (forall todo tr,
     attempts str_float self net req retry_count todo 0 None = (LoopEnd None, tr) ->
     todo = O /\ tr = []).
Proof.
  intros req outcome. split.
  - intros Hkey Hrc Hall.
    destruct (loop_all_retried str_float self net req retry_count
                (Z.to_nat retry_count) 0 None) as [Hfst Hposts].
    { intros a Ha. apply Hall. lia. }
    unfold classify_image. destruct (api_key self) as [|k ks]; [congruence|].
    fold req.
    destruct (attempts str_float self net req retry_count
                (Z.to_nat retry_count) 0 None) as [x tr].
    simpl in Hfst, Hposts. subst x.
    destruct (Z.to_nat retry_count) as [|n] eqn:Hn; [lia|].
    simpl in *. rewrite Nat.sub_0_r.
    assert (Hr : retried (outcome n) = true) by (apply Hall; lia).
    fold (outcome n).
    destruct (outcome n) as [c|e|e|e]; try discriminate;
      exists e, tr; auto.
  - intros todo tr H.
    apply (loop_end_none str_float self net req retry_count) in H.
    tauto.
Qed.

Lemma exhausted_retries_witness :
  exists e tr,
    recorded (except_clauses demo_str_float demo_service
                (try_block (net_always response_503 2%nat demo_request)))
    = Some e /\
    classify_image demo_str_float demo_service (net_always response_503)
      demo_image 50 0.1%float 3 = (Err e, tr) /\
    posts tr = 3%nat.
Proof.
  refine (proj1 (exhausted_retries_surface_last_failure demo_str_float
            demo_service (net_always response_503) demo_image 50 0.1%float 3)
            _ _ _).
  - discriminate.
  - reflexivity.
  - intros a _. reflexivity.
Defined.

(** C1 (how the code departs from it). A 404 answered to every attempt, with
    the body "Not Found", is not raised at once: line 143 raises inside the
    [try], the last [except] clause catches it, finds none of "400", "401",
    "403" in "API error 404: Not Found", and the loop goes on. Three requests
    are sent, with sleeps of 1 and 2 seconds between them. *)
Theorem client_error_404_is_retried :
  classify_image demo_str_float demo_service (net_always response_404)
    demo_image 50 0.1%float 3
  = (Err (Exception (lit "API error 404: Not Found")),
     [EvPost 0 demo_request; EvSleep 1;
      EvPost 1 demo_request; EvSleep 2;
      EvPost 2 demo_request]).
Proof. vm_compute. reflexivity. Qed.

(** C3 (how the code departs from it). Two 503 responses and then a 200:
    the call succeeds on the third attempt, but the [continue] of line 147
    skips lines 180-183, so no sleep separates the three requests. *)
Theorem server_errors_retried_without_backoff :
  classify_image demo_str_float demo_service net_503_503_200
    demo_image 50 0.1%float 3
  = (Ok (lit "cat"),
     [EvPost 0 demo_request; EvPost 1 demo_request; EvPost 2 demo_request]) /\
  sleeps (snd (classify_image demo_str_float demo_service net_503_503_200
                 demo_image 50 0.1%float 3)) = [].
Proof. split; vm_compute; reflexivity. Qed.

(** The sibling paths do back off: after a timeout the loop sleeps 1 s, then
    2 s, and not after the last attempt. *)
Example timeouts_back_off :
  sleeps (snd (classify_image demo_str_float demo_service
                 (net_always (Throws (TimeoutException (lit "timed out"))))
                 demo_image 50 0.1%float 3)) = [1; 2].
Proof. vm_compute. reflexivity. Qed.

(* ===================================================================== *)
(** * Facts about the batch *)
(* ===================================================================== *)

Lemma in_flight_insert (ts : list task) (t : nat) (x y : task) :
  ts !! t = Some x ->
  in_flight (<[t:=y]> ts)
  = in_flight ts - Z.b2z (is_running x) + Z.b2z (is_running y).
Proof.
  revert t. induction ts as [|a ts IH]; intros [|t] H; simpl in *; try discriminate.
  - injection H as ->. unfold in_flight. simpl.
    destruct (is_running x), (is_running y); cbn [length Z.b2z]; lia.
  - specialize (IH t H). unfold in_flight in *. simpl.
    destruct (is_running a); cbn [length Z.b2z] in *; lia.
Qed.

Lemma remaining_insert (ts : list task) (t : nat) (x y : task) :
  ts !! t = Some x ->
  (remaining (<[t:=y]> ts) + remaining_of x = remaining ts + remaining_of y)%nat.
Proof.
  revert t. induction ts as [|a ts IH]; intros [|t] H; simpl in *; try discriminate.
  - injection H as ->. lia.
  - specialize (IH t H). lia.
Qed.

Lemma in_flight_spawn (images_data : list (list byte)) :
  in_flight (spawn images_data) = 0.
Proof.
  unfold spawn, in_flight.
  enough (H : forall (f : nat -> list byte -> task),
             (forall i d, is_running (f i d) = false) ->
             List.filter is_running (imap f images_data) = []).
  { rewrite H; reflexivity. }
  induction images_data as [|d ds IH]; intros f Hf; simpl; [reflexivity|].
  rewrite Hf. apply IH. intros i d'. apply Hf.
Qed.

Lemma remaining_spawn (images_data : list (list byte)) :
  remaining (spawn images_data) = (2 * length images_data)%nat.
Proof.
  unfold spawn.
  enough (H : forall (f : nat -> list byte -> task),
             (forall i d, remaining_of (f i d) = 2%nat) ->
             remaining (imap f images_data) = (2 * length images_data)%nat).
  { apply H. reflexivity. }
  induction images_data as [|d ds IH]; intros f Hf; simpl; [reflexivity|].
  rewrite Hf, IH; [lia|]. intros i d'. apply Hf.
Qed.

Lemma gather_fmap (ts : list task) (rs : list item) :
  gather ts = Some rs -> ts = Finished <$> rs.
Proof.
  revert rs. induction ts as [|t ts IH]; intros rs; simpl.
  - intros [= <-]. reflexivity.
  - destruct t as [| |r]; try discriminate.
    destruct (gather ts) as [rs'|]; [|discriminate].
    intros [= <-]. simpl. f_equal. apply IH. reflexivity.
Qed.

Lemma gather_remaining (ts : list task) :
  remaining ts = 0%nat -> exists rs, gather ts = Some rs.
Proof.
  induction ts as [|t ts IH]; simpl; [eauto|].
  destruct t; simpl; try discriminate.
  intros H. destruct (IH H) as [rs ->]. eauto.
Qed.

Lemma run_app (str_float : float -> str) (self : ImageDetectionService)
    (nets : nat -> nat -> Request -> post_outcome)
    (s1 s2 : list action) (st : batch) :
  run str_float self nets (s1 ++ s2) st =
    match run str_float self nets s1 st with
    | Some st' => run str_float self nets s2 st'
    | None => None
    end.
Proof.
  revert st. induction s1 as [|a s1 IH]; intros st; simpl; [reflexivity|].
  destruct (step str_float self nets a st); [apply IH|reflexivity].
Qed.

Section BatchFacts.

Variable str_float : float -> str.
Variable self : ImageDetectionService.
Variable nets : nat -> nat -> Request -> post_outcome.
Variable images_data : list (list byte).
Variable k : Z.

Let ok := consistent str_float self nets images_data k.
Let do_step := step str_float self nets.
Let do_run := run str_float self nets.

Lemma start_inv (st0 : batch) :
  start images_data k = Ok st0 ->
  0 <= k /\ st0 = {| semaphore := k; tasks := spawn images_data |}.
Proof.
  unfold start. destruct (k <? 0) eqn:E; [discriminate|].
  intros [= <-]. split; [lia|reflexivity].
Qed.

Lemma consistent_start (st0 : batch) :
  start images_data k = Ok st0 -> ok st0.
Proof.
  intros H. apply start_inv in H as [Hk ->].
  unfold ok, consistent. simpl. rewrite in_flight_spawn.
  repeat split; [lia|lia|apply length_imap|].
  intros i d Hd. exists (Waiting d i). split; [|left; reflexivity].
  unfold spawn. rewrite list_lookup_imap, Hd. reflexivity.
Qed.

Lemma consistent_step (a : action) (st st' : batch) :
  ok st -> do_step a st = Some st' -> ok st'.
Proof.
  intros (Hsem & Hpos & Hlen & Htasks) Hstep.
  destruct a as [t|t]; unfold do_step, step in Hstep.
  - destruct (tasks st !! t) as [[d i| |]|] eqn:Ht; try discriminate.
    destruct (0 <? semaphore st) eqn:Hs; [|discriminate].
    injection Hstep as <-. unfold ok, consistent. simpl.
    rewrite (in_flight_insert _ _ _ _ Ht). simpl.
    repeat split; [lia|lia|rewrite length_insert; exact Hlen|].
    intros j dj Hj. destruct (Htasks j dj Hj) as (tj & Htj & Hof).
    destruct (decide (t = j)) as [->|Hne].
    + exists (Running d i). split.
      * apply list_lookup_insert_eq. apply (lookup_lt_Some _ _ _ Ht).
      * rewrite Ht in Htj. injection Htj as <-.
        destruct Hof as [Hof|[Hof|Hof]]; try discriminate.
        injection Hof as -> ->. right; left; reflexivity.
    + exists tj. split; [|exact Hof].
      rewrite list_lookup_insert_ne; [exact Htj|exact Hne].
  - destruct (tasks st !! t) as [[|d i|]|] eqn:Ht; try discriminate.
    injection Hstep as <-. unfold ok, consistent. simpl.
    rewrite (in_flight_insert _ _ _ _ Ht). simpl.
    assert (0 < in_flight (tasks st)).
    { clear -Ht. revert t Ht. unfold in_flight.
      induction (tasks st) as [|x xs IH]; intros [|t] Ht; simpl in *;
        try discriminate.
      - injection Ht as ->. simpl. lia.
      - specialize (IH t Ht). destruct (is_running x); cbn [length]; lia. }
    repeat split; [lia|lia|rewrite length_insert; exact Hlen|].
    intros j dj Hj. destruct (Htasks j dj Hj) as (tj & Htj & Hof).
    destruct (decide (t = j)) as [->|Hne].
    + exists (Finished (classify_single str_float self nets d i)). split.
      * apply list_lookup_insert_eq. apply (lookup_lt_Some _ _ _ Ht).
      * rewrite Ht in Htj. injection Htj as <-.
        destruct Hof as [Hof|[Hof|Hof]]; try discriminate.
        injection Hof as -> ->. right; right; reflexivity.
    + exists tj. split; [|exact Hof].
      rewrite list_lookup_insert_ne; [exact Htj|exact Hne].
Qed.

Lemma consistent_run (schedule : list action) (st st' : batch) :
  ok st -> do_run schedule st = Some st' -> ok st'.
Proof.
  revert st. induction schedule as [|a schedule IH]; intros st Hok; simpl.
  - intros [= <-]. exact Hok.
  - unfold do_run. simpl. fold do_step. fold do_run. destruct (do_step a st) as [st1|] eqn:Hs; [|discriminate].
    apply IH. exact (consistent_step _ _ _ Hok Hs).
Qed.

(** Every action takes one unit off what is left to do. *)
Lemma step_remaining (a : action) (st st' : batch) :
  do_step a st = Some st' ->
  S (remaining (tasks st')) = remaining (tasks st).
Proof.
  destruct a as [t|t]; unfold do_step, step.
  - destruct (tasks st !! t) as [[d i| |]|] eqn:Ht; try discriminate.
    destruct (0 <? semaphore st); [|discriminate].
    intros [= <-]. simpl.
    pose proof (remaining_insert _ _ _ (Running d i) Ht) as H. simpl in H. lia.
  - destruct (tasks st !! t) as [[|d i|]|] eqn:Ht; try discriminate.
    intros [= <-]. simpl.
    pose proof (remaining_insert _ _ _
                  (Finished (classify_single str_float self nets d i)) Ht) as H.
    simpl in H. lia.
Qed.

Lemma run_remaining (schedule : list action) (st st' : batch) :
  do_run schedule st = Some st' ->
  (remaining (tasks st') + length schedule = remaining (tasks st))%nat.
Proof.
  revert st. induction schedule as [|a schedule IH]; intros st; simpl.
  - intros [= <-]. lia.
  - unfold do_run. simpl. fold do_step. fold do_run. destruct (do_step a st) as [st1|] eqn:Hs; [|discriminate].
    intros H. apply IH in H. apply step_remaining in Hs. lia.
Qed.

End BatchFacts.

Lemma in_flight_running (ts : list task) :
  0 < in_flight ts -> exists t d i, ts !! t = Some (Running d i).
Proof.
  unfold in_flight. induction ts as [|x xs IH]; simpl; [lia|].
  destruct x as [d i|d i|r]; simpl.
  - intros H. destruct (IH H) as (t & d' & i' & Ht). exists (S t), d', i'. exact Ht.
  - intros _. exists 0%nat, d, i. reflexivity.
  - intros H. destruct (IH H) as (t & d' & i' & Ht). exists (S t), d', i'. exact Ht.
Qed.

Lemma idle_waiting (ts : list task) :
  in_flight ts = 0 -> remaining ts <> 0%nat ->
  exists t d i, ts !! t = Some (Waiting d i).
Proof.
  unfold in_flight. induction ts as [|x xs IH]; simpl; [congruence|].
  destruct x as [d i|d i|r]; simpl.
  - intros _ _. exists 0%nat, d, i. reflexivity.
  - cbn [length]. lia.
  - intros H1 H2. destruct (IH H1 H2) as (t & d' & i' & Ht).
    exists (S t), d', i'. exact Ht.
Qed.

Lemma index_classify_single (str_float : float -> str)
    (self : ImageDetectionService) (nets : nat -> nat -> Request -> post_outcome)
    (image_data : list byte) (i : nat) :
  index (classify_single str_float self nets image_data i) = i.
Proof. unfold classify_single. destruct (fst _); reflexivity. Qed.

Lemma index_outcomes (str_float : float -> str)
    (self : ImageDetectionService) (nets : nat -> nat -> Request -> post_outcome)
    (images_data : list (list byte)) :
  index <$> outcomes str_float self nets images_data
  = seq 0 (length images_data).
Proof.
  apply list_eq. intros i. unfold outcomes.
  rewrite list_lookup_fmap, list_lookup_imap.
  destruct (images_data !! i) as [d|] eqn:Hd; simpl.
  - rewrite index_classify_single. symmetry. apply lookup_seq.
    split; [reflexivity|]. apply (lookup_lt_Some _ _ _ Hd).
  - symmetry. apply lookup_seq_ge. apply lookup_ge_None. exact Hd.
Qed.

Section BatchRuns.

Variable str_float : float -> str.
Variable self : ImageDetectionService.
Variable nets : nat -> nat -> Request -> post_outcome.
Variable images_data : list (list byte).
Variable k : Z.

Let ok := consistent str_float self nets images_data k.
Let do_step := step str_float self nets.
Let do_run := run str_float self nets.

(** With a cap of at least one, a batch that is not finished can move. *)
Lemma batch_progress (st : batch) :
  1 <= k -> ok st -> remaining (tasks st) <> 0%nat ->
  exists a st', do_step a st = Some st'.
Proof.
  intros Hk (Hsem & Hpos & _ & _) Hrem.
  destruct (Z.eq_dec (in_flight (tasks st)) 0) as [Hidle|Hbusy].
  - destruct (idle_waiting _ Hidle Hrem) as (t & d & i & Ht).
    exists (Acquire t). unfold do_step, step. rewrite Ht.
    destruct (0 <? semaphore st) eqn:E; [eauto|lia].
  - assert (Hpos' : 0 < in_flight (tasks st)) by (unfold in_flight in *; lia).
    destruct (in_flight_running _ Hpos') as (t & d & i & Ht).
    exists (Release t). unfold do_step, step. rewrite Ht. eauto.
Qed.

(** Hence every reachable state can be run to the end. *)
Lemma batch_completes (st : batch) :
  1 <= k -> ok st ->
  exists more st', do_run more st = Some st' /\ remaining (tasks st') = 0%nat.
Proof.
  intros Hk. remember (remaining (tasks st)) as n eqn:Hn.
  revert st Hn. induction n as [|n IH]; intros st Hn Hok.
  - exists [], st. split; [reflexivity|]. symmetry. exact Hn.
  - destruct (batch_progress st Hk Hok) as (a & st1 & Hs); [lia|].
    pose proof (step_remaining _ _ _ _ _ _ Hs) as Hr.
    destruct (IH st1) as (more & st' & Hrun & Hz); [lia| |].
    { exact (consistent_step _ _ _ _ _ _ _ _ Hok Hs). }
    exists (a :: more), st'. split; [|exact Hz].
    unfold do_run. simpl. fold do_step. rewrite Hs. exact Hrun.
Qed.

(** What [gather] returns from a consistent state: each image's own result,
    in the order of the images. *)
Lemma gather_outcomes (st : batch) (results : list item) :
  ok st -> gather (tasks st) = Some results ->
  results = outcomes str_float self nets images_data.
Proof.
  intros (_ & _ & Hlen & Htasks) Hg. apply gather_fmap in Hg.
  assert (Hl : length results = length images_data).
  { rewrite <- Hlen, Hg. symmetry. apply length_fmap. }
  apply list_eq. intros i. unfold outcomes. rewrite list_lookup_imap.
  destruct (images_data !! i) as [d|] eqn:Hd; simpl.
  - destruct (Htasks i d Hd) as (t & Ht & Hof).
    rewrite Hg, list_lookup_fmap in Ht.
    destruct (results !! i) as [r|]; simpl in Ht; [|discriminate].
    injection Ht as <-.
    destruct Hof as [Hof|[Hof|Hof]]; try discriminate.
    injection Hof as ->. reflexivity.
  - apply lookup_ge_None. rewrite Hl. apply lookup_ge_None. exact Hd.
Qed.

End BatchRuns.

(* ===================================================================== *)
(** * The claims about [classify_batch] *)
(* ===================================================================== *)

(** With a cap of zero no task is ever admitted: a batch of at least one
    image never returns. With a negative cap the semaphore cannot be built. *)
Lemma zero_cap_admits_nothing (str_float : float -> str)
    (self : ImageDetectionService) (nets : nat -> nat -> Request -> post_outcome)
    (images_data : list (list byte)) (a : action) :
  step str_float self nets a {| semaphore := 0; tasks := spawn images_data |} = None.
Proof.
  destruct a as [t|t]; unfold step; simpl; unfold spawn;
    rewrite list_lookup_imap; destruct (images_data !! t); reflexivity.
Qed.

Lemma negative_cap_raises (images_data : list (list byte)) (k : Z) :
  k < 0 ->
  start images_data k = Err (ValueError (lit "Semaphore initial value must be >= 0")).
Proof. intros H. unfold start. destruct (k <? 0) eqn:E; [reflexivity|lia]. Qed.

(** C5. Under a cap of at least one, whatever the order in which the tasks
    are admitted and finish: when [classify_batch] returns, its list has one
    entry per image, the indices read 0, 1, ..., N-1 in this order (each once),
    and the entry at position [i] is the outcome of the call made for the image
    at position [i]. And it does return: no run takes more than 2N steps, and
    every state a run can reach can be run on to the point where [gather]
    returns. *)
Theorem classify_batch_one_entry_per_index
    (str_float : float -> str) (self : ImageDetectionService)
    (nets : nat -> nat -> Request -> post_outcome)
    (images_data : list (list byte)) (max_concurrent : Z) :
  1 <= max_concurrent ->
  (forall schedule results,
     classify_batch str_float self nets images_data max_concurrent schedule
     = Ok (Some results) ->
     length results = length images_data /\
     index <$> results = seq 0 (length images_data) /\
     forall i image_data,
       images_data !! i = Some image_data ->
       results !! i = Some (classify_single str_float self nets image_data i)) /\
  (forall schedule st0 st,
     start images_data max_concurrent = Ok st0 ->
     run str_float self nets schedule st0 = Some st ->
     (length schedule <= 2 * length images_data)%nat /\
     exists more results,
       classify_batch str_float self nets images_data max_concurrent
         (schedule ++ more) = Ok (Some results)).
Proof.
  intros Hk. split.
  - intros schedule results. unfold classify_batch.
    destruct (start images_data max_concurrent) as [st0|] eqn:Hst; simpl;
      [|discriminate].
    destruct (run str_float self nets schedule st0) as [st|] eqn:Hrun;
      [|discriminate].
    intros [= Hg].
    pose proof (consistent_run _ _ _ _ _ _ _ _
                  (consistent_start _ _ _ _ _ _ Hst) Hrun) as Hok.
    rewrite (gather_outcomes _ _ _ _ _ _ _ Hok Hg).
    split; [apply length_imap|]. split; [apply index_outcomes|].
    intros i d Hd. unfold outcomes. rewrite list_lookup_imap, Hd. reflexivity.
  - intros schedule st0 st Hst Hrun.
    pose proof (consistent_run _ _ _ _ _ _ _ _
                  (consistent_start _ _ _ _ _ _ Hst) Hrun) as Hok.
    split.
    + pose proof (run_remaining _ _ _ _ _ _ Hrun) as Hr.
      apply start_inv in Hst as [_ ->]. simpl in Hr.
      rewrite remaining_spawn in Hr. lia.
    + destruct (batch_completes _ _ _ _ _ _ Hk Hok) as (more & st' & Hmore & Hz).
      destruct (gather_remaining _ Hz) as [results Hg].
      exists more, results. unfold classify_batch. rewrite Hst. simpl.
      rewrite run_app, Hrun, Hmore, Hg. reflexivity.
Qed.

Lemma classify_batch_one_entry_per_index_witness :
  length demo_results = length demo_images /\
  index <$> demo_results = seq 0 (length demo_images) /\
  forall i image_data,
    demo_images !! i = Some image_data ->
    demo_results !! i
    = Some (classify_single demo_str_float demo_service demo_nets image_data i).
Proof.
  refine (proj1 (classify_batch_one_entry_per_index demo_str_float demo_service
            demo_nets demo_images 2 _) demo_schedule demo_results _).
  - lia.
  - vm_compute. reflexivity.
Defined.

(** C6. Under a cap of at least one: an exception raised by the call of
    [classify_image] for the image at position [i] (one raised after the
    retries are used up included) becomes the entry [Failed i str(e)] at
    position [i]; the calls that succeed give [Classified] entries at their
    own positions, whatever the others did; and from every state a run can
    reach, the batch can be run on until [classify_batch] returns, without an
    exception, its list of N entries. *)
Theorem classify_batch_isolates_failures
    (str_float : float -> str) (self : ImageDetectionService)
    (nets : nat -> nat -> Request -> post_outcome)
    (images_data : list (list byte)) (max_concurrent : Z) :
  1 <= max_concurrent ->
  forall schedule st0 st,
    start images_data max_concurrent = Ok st0 ->
    run str_float self nets schedule st0 = Some st ->
    exists more results,
      classify_batch str_float self nets images_data max_concurrent
        (schedule ++ more) = Ok (Some results) /\
      length results = length images_data /\
      forall i image_data,
        images_data !! i = Some image_data ->
        match fst (classify_image str_float self (nets i) image_data 50
                     0.1%float 3) with
        | Ok classification => results !! i = Some (Classified i classification)
        | Err e => results !! i = Some (Failed i (str_exn e))
        end.
Proof.
  intros Hk schedule st0 st Hst Hrun.
  pose proof (consistent_run _ _ _ _ _ _ _ _
                (consistent_start _ _ _ _ _ _ Hst) Hrun) as Hok.
  destruct (batch_completes _ _ _ _ _ _ Hk Hok) as (more & st' & Hmore & Hz).
  destruct (gather_remaining _ Hz) as [results Hg].
  pose proof (consistent_run _ _ _ _ _ _ _ _ Hok Hmore) as Hok'.
  pose proof (gather_outcomes _ _ _ _ _ _ _ Hok' Hg) as ->.
  exists more, (outcomes str_float self nets images_data). split; [|split].
  - unfold classify_batch. rewrite Hst. simpl.
    rewrite run_app, Hrun, Hmore, Hg. reflexivity.
  - apply length_imap.
  - intros i d Hd. unfold outcomes. rewrite list_lookup_imap, Hd. simpl.
    unfold classify_single. destruct (fst _); reflexivity.
Qed.

Lemma classify_batch_isolates_failures_witness :
  exists more results,
    classify_batch demo_str_float demo_service demo_nets demo_images 2
      ([Acquire 1; Acquire 0] ++ more) = Ok (Some results) /\
    length results = length demo_images /\
    forall i image_data,
      demo_images !! i = Some image_data ->
      match fst (classify_image demo_str_float demo_service (demo_nets i)
                   image_data 50 0.1%float 3) with
      | Ok classification => results !! i = Some (Classified i classification)
      | Err e => results !! i = Some (Failed i (str_exn e))
      end.
Proof.
  refine (classify_batch_isolates_failures demo_str_float demo_service demo_nets
            demo_images 2 _ [Acquire 1; Acquire 0]
            {| semaphore := 2; tasks := spawn demo_images |}
            {| semaphore := 0;
               tasks := [Running demo_image 0; Running [x01] 1; Waiting [] 2] |}
            _ _).
  - lia.
  - reflexivity.
  - reflexivity.
Defined.



(* ===================================================================== *)
(** * More about the retry loop *)
(* ===================================================================== *)

Lemma sleeps_post (attempt : nat) (req : Request) (tr : list event) :
  sleeps (EvPost attempt req :: tr) = sleeps tr.
Proof. reflexivity. Qed.

Lemma sleeps_sleep (z : Z) (tr : list event) :
  sleeps (EvSleep z :: tr) = z :: sleeps tr.
Proof. reflexivity. Qed.

Section LoopMore.

Variable str_float : float -> str.
Variable self : ImageDetectionService.
Variable net : nat -> Request -> post_outcome.
Variable req : Request.
Variable retry_count : Z.

Let outcome (attempt : nat) : after_try :=
  except_clauses str_float self (try_block (net attempt req)).

Local Abbreviation loop := (attempts str_float self net req retry_count).

(** Iterations that all end in [continue] sleep nowhere. *)
Lemma loop_all_continue (todo attempt : nat) (last : option exn) :
  (forall a, (attempt <= a < attempt + todo)%nat ->
             exists e, outcome a = NextAttempt e) ->
  sleeps (snd (loop todo attempt last)) = [].
Proof.
  revert attempt last. induction todo as [|todo IH]; intros attempt last H.
  - reflexivity.
  - destruct (H attempt) as [e E]; [lia|].
    rewrite (loop_continues _ _ _ _ _ _ _ _ _ E). simpl.
    apply IH. intros a Ha. apply H. lia.
Qed.

(** Iterations that all fall through to lines 180-183 sleep 2 ** attempt
    after each one but the last. *)
Lemma loop_all_backoff (todo attempt : nat) (last : option exn) :
  Z.of_nat (attempt + todo) = retry_count ->
  (forall a, (attempt <= a < attempt + todo)%nat ->
             exists e, outcome a = Backoff e) ->
  sleeps (snd (loop todo attempt last))
  = List.map (fun a => 2 ^ Z.of_nat a) (seq attempt (todo - 1)).
Proof.
  revert attempt last. induction todo as [|todo IH]; intros attempt last Hn H.
  - reflexivity.
  - destruct (H attempt) as [e E]; [lia|].
    rewrite (loop_backs_off _ _ _ _ _ _ _ _ _ E). simpl snd.
    assert (Hrest : sleeps (snd (loop todo (S attempt) (Some e)))
                    = List.map (fun a => 2 ^ Z.of_nat a) (seq (S attempt) (todo - 1))).
    { apply IH; [lia|]. intros a Ha. apply H. lia. }
    unfold backoff. destruct todo as [|t].
    + destruct (Z.of_nat attempt <? retry_count - 1) eqn:Hlt; [lia|].
      reflexivity.
    + destruct (Z.of_nat attempt <? retry_count - 1) eqn:Hlt; [|lia].
      rewrite sleeps_post. change ([EvSleep (2 ^ Z.of_nat attempt)] ++ ?x)
        with (EvSleep (2 ^ Z.of_nat attempt) :: x).
      rewrite sleeps_sleep, Hrest.
      replace (S (S t) - 1)%nat with (S t) by lia.
      replace (S t - 1)%nat with t by lia. reflexivity.
Qed.

(** The time slept from iteration [attempt] on. *)
Lemma loop_total_sleep (todo attempt : nat) (last : option exn) :
  total (sleeps (snd (loop todo attempt last))) + 2 ^ Z.of_nat attempt
  <= Z.max (2 ^ Z.of_nat attempt) (2 ^ (retry_count - 1)).
Proof.
  revert attempt last. induction todo as [|todo IH]; intros attempt last.
  - simpl. lia.
  - assert (Hpow : 2 ^ Z.of_nat (S attempt) = 2 * 2 ^ Z.of_nat attempt).
    { rewrite Nat2Z.inj_succ. apply Z.pow_succ_r. lia. }
    assert (Hpos : 0 < 2 ^ Z.of_nat attempt) by (apply Z.pow_pos_nonneg; lia).
    assert (Hmono : Z.of_nat (S attempt) <= retry_count - 1 ->
                    2 ^ Z.of_nat (S attempt) <= 2 ^ (retry_count - 1)).
    { intros Hle. apply Z.pow_le_mono_r; lia. }
    assert (Hrest : forall e,
              total (sleeps (snd (loop todo (S attempt) (Some e))))
              + 2 ^ Z.of_nat attempt
              <= Z.max (2 ^ Z.of_nat attempt) (2 ^ (retry_count - 1))).
    { intros e. specialize (IH (S attempt) (Some e)).
      destruct (Z_le_gt_dec (Z.of_nat (S attempt)) (retry_count - 1)) as [Hle|Hgt].
      - specialize (Hmono Hle). lia.
      - assert (2 ^ (retry_count - 1) <= 2 ^ Z.of_nat (S attempt)).
        { destruct (Z_lt_le_dec (retry_count - 1) 0) as [Hneg|Hnn].
          - rewrite (Z.pow_neg_r 2 _ Hneg). lia.
          - apply Z.pow_le_mono_r; lia. }
        lia. }
    destruct (outcome attempt) as [c|e|e|e] eqn:E.
    + rewrite (loop_returns _ _ _ _ _ _ _ _ _ E). simpl. lia.
    + rewrite (loop_continues _ _ _ _ _ _ _ _ _ E). simpl. apply Hrest.
    + rewrite (loop_breaks _ _ _ _ _ _ _ _ _ E). simpl. lia.
    + rewrite (loop_backs_off _ _ _ _ _ _ _ _ _ E). simpl snd. unfold backoff.
      destruct (Z.of_nat attempt <? retry_count - 1) eqn:Hlt.
      * rewrite sleeps_post. simpl app. rewrite sleeps_sleep. cbn [total].
        specialize (IH (S attempt) (Some e)).
        assert (Hle : Z.of_nat (S attempt) <= retry_count - 1) by lia.
        specialize (Hmono Hle). lia.
      * rewrite sleeps_post. simpl app. apply Hrest.
Qed.

(** An iteration sends its request first. *)
Lemma loop_first_post (todo attempt : nat) (last : option exn) :
  exists tr, snd (loop (S todo) attempt last) = EvPost attempt req :: tr.
Proof.
  destruct (outcome attempt) as [c|e|e|e] eqn:E.
  - rewrite (loop_returns _ _ _ _ _ _ _ _ _ E). eauto.
  - rewrite (loop_continues _ _ _ _ _ _ _ _ _ E). eauto.
  - rewrite (loop_breaks _ _ _ _ _ _ _ _ _ E). eauto.
  - rewrite (loop_backs_off _ _ _ _ _ _ _ _ _ E). eauto.
Qed.

(** Failures that are retried, then an attempt that returns. *)
Lemma loop_retried_then_returns (failures todo attempt : nat)
    (last : option exn) (c : str) :
  (forall a, (attempt <= a < attempt + failures)%nat -> retried (outcome a) = true) ->
  outcome (attempt + failures) = Returns c ->
  fst (loop (failures + S todo) attempt last) = LoopReturn c /\
  posts (snd (loop (failures + S todo) attempt last)) = S failures.
Proof.
  revert attempt last. induction failures as [|n IH]; intros attempt last H Hret.
  - rewrite Nat.add_0_r in Hret. simpl Nat.add.
    rewrite (loop_returns _ _ _ _ _ _ _ _ _ Hret). split; reflexivity.
  - assert (Hr : retried (outcome attempt) = true) by (apply H; lia).
    assert (IH' : forall e,
              fst (loop (n + S todo) (S attempt) (Some e)) = LoopReturn c /\
              posts (snd (loop (n + S todo) (S attempt) (Some e))) = S n).
    { intros e. apply IH.
      - intros a Ha. apply H. lia.
      - replace (S attempt + n)%nat with (attempt + S n)%nat by lia. exact Hret. }
    simpl Nat.add.
    destruct (outcome attempt) as [c'|e|e|e] eqn:E; try discriminate.
    + rewrite (loop_continues _ _ _ _ _ _ _ _ _ E). simpl.
      destruct (IH' e) as [-> Hp]. split; [reflexivity|].
      unfold posts in *. simpl. rewrite Hp. reflexivity.
    + rewrite (loop_backs_off _ _ _ _ _ _ _ _ _ E). simpl.
      destruct (IH' e) as [-> Hp]. split; [reflexivity|].
      unfold posts, backoff in *. simpl.
      destruct (_ <? _); simpl; rewrite Hp; reflexivity.
Qed.

End LoopMore.

(** ** What [strip] leaves *)

Lemma lstrip_head (s : str) :
  match lstrip s with
  | [] => True
  | c :: _ => isspace c = false
  end.
Proof.
  induction s as [|c s IH]; simpl; [exact I|].
  destruct (isspace c) eqn:E; [exact IH|exact E].
Qed.

Lemma lstrip_suffix (s : str) : exists p, s = p ++ lstrip s.
Proof.
  induction s as [|c s [p IH]]; simpl.
  - exists []. reflexivity.
  - destruct (isspace c).
    + exists (c :: p). simpl. f_equal. exact IH.
    + exists []. reflexivity.
Qed.

Lemma strip_first (s : str) (x : N) (rest : str) :
  strip s = x :: rest -> isspace x = false.
Proof.
  unfold strip, rstrip. intros H.
  destruct (lstrip_suffix (rev (lstrip s))) as [p Hp].
  apply (f_equal (@rev N)) in Hp. rewrite rev_involutive, rev_app_distr, H in Hp.
  pose proof (lstrip_head s) as Hh. rewrite Hp in Hh. exact Hh.
Qed.

Lemma strip_last (s : str) (front : str) (y : N) :
  strip s = front ++ [y] -> isspace y = false.
Proof.
  unfold strip, rstrip. intros H.
  apply (f_equal (@rev N)) in H. rewrite rev_involutive, rev_app_distr in H.
  pose proof (lstrip_head (rev (lstrip s))) as Hh. rewrite H in Hh. exact Hh.
Qed.

Lemma extract_stripped (result : value) (c : str) :
  extract result = Ok c -> exists s, c = strip s.
Proof.
  unfold extract.
  destruct (Py.contains_key (lit "choices") result) as [has|]; simpl; [|discriminate].
  destruct (if negb has then Ok true else _) as [[|]|]; simpl; try discriminate.
  destruct (Py.getitem result (lit "choices")) as [ch|]; simpl; [|discriminate].
  destruct (Py.getitem0 ch) as [f|]; simpl; [|discriminate].
  destruct (Py.getitem f (lit "message")) as [m|]; simpl; [|discriminate].
  destruct (Py.getitem m (lit "content")) as [b|]; simpl; [|discriminate].
  destruct b as [| | | |s| |]; simpl; try discriminate.
  destruct (strip s) as [|x xs] eqn:Hs; simpl; [discriminate|].
  intros [= <-]. exists s. symmetry. exact Hs.
Qed.

Lemma attempts_return_stripped (str_float : float -> str)
    (self : ImageDetectionService) (net : nat -> Request -> post_outcome)
    (req : Request) (retry_count : Z) (todo attempt : nat)
    (last : option exn) (c : str) :
  fst (attempts str_float self net req retry_count todo attempt last) = LoopReturn c ->
  exists s, c = strip s.
Proof.
  revert attempt last. induction todo as [|todo IH]; intros attempt last.
  - simpl. discriminate.
  - destruct (except_clauses str_float self (try_block (net attempt req)))
      as [c'|e|e|e] eqn:E.
    + rewrite (loop_returns _ _ _ _ _ _ _ _ _ E). simpl. intros [= <-].
      destruct (net attempt req) as [r|e']; simpl in E.
      * destruct (negb (status_code r =? 200)).
        -- destruct (_ && _); simpl in E; try discriminate.
           destruct (has_client_code _); discriminate.
        -- destruct (json r) as [v|e']; simpl in E.
           ++ destruct (extract v) as [c''|e'] eqn:X; simpl in E.
              ** injection E as <-. exact (extract_stripped _ _ X).
              ** destruct e'; simpl in E; try discriminate;
                   destruct (has_client_code _); discriminate.
           ++ destruct e'; simpl in E; try discriminate;
                destruct (has_client_code _); discriminate.
      * destruct e'; simpl in E; try discriminate;
          destruct (has_client_code _); discriminate.
    + rewrite (loop_continues _ _ _ _ _ _ _ _ _ E). simpl. apply IH.
    + rewrite (loop_breaks _ _ _ _ _ _ _ _ _ E). simpl. discriminate.
    + rewrite (loop_backs_off _ _ _ _ _ _ _ _ _ E). simpl. apply IH.
Qed.

(** ** One attempt, by kind of answer *)

Lemma server_error_outcome (str_float : float -> str)
    (self : ImageDetectionService) (r : Response) :
  status_code r <> 200 -> ~ (400 <= status_code r < 500) ->
  except_clauses str_float self (try_block (Responds r))
  = NextAttempt (Exception (error_msg r)).
Proof.
  intros H200 H4xx. simpl.
  destruct (status_code r =? 200) eqn:E; [lia|]. simpl.
  destruct ((400 <=? status_code r) && (status_code r <? 500)) eqn:B;
    [|reflexivity].
  apply andb_true_iff in B as [B1 B2]. lia.
Qed.

Lemma client_error_outcome (str_float : float -> str)
    (self : ImageDetectionService) (r : Response) :
  400 <= status_code r < 500 ->
  except_clauses str_float self (try_block (Responds r))
  = if has_client_code (error_msg r)
    then Break (Exception (error_msg r))
    else Backoff (Exception (error_msg r)).
Proof.
  intros H4xx. simpl.
  destruct (status_code r =? 200) eqn:E; [lia|]. simpl.
  destruct ((400 <=? status_code r) && (status_code r <? 500)) eqn:B.
  - reflexivity.
  - apply andb_false_iff in B as [B|B]; lia.
Qed.

(* ===================================================================== *)
(** * Further properties of [classify_image] *)
(* ===================================================================== *)

(** X4. With a key configured and [retry_count] zero or negative,
    [range(retry_count)] is empty: [classify_image] sends nothing and raises
    [Exception("Classification failed after all retries")]. *)
Theorem no_attempt_without_retry_count
    (str_float : float -> str) (self : ImageDetectionService)
    (net : nat -> Request -> post_outcome) (image_data : list byte)
    (max_tokens : Z) (temperature : float) (retry_count : Z) :
  api_key self <> [] -> retry_count <= 0 ->
  classify_image str_float self net image_data max_tokens temperature retry_count
  = (Err (Exception (lit "Classification failed after all retries")), []).
Proof.
  intros Hkey Hrc. unfold classify_image.
  destruct (api_key self) as [|k ks]; [congruence|].
  replace (Z.to_nat retry_count) with O by lia. reflexivity.
Qed.

Lemma no_attempt_without_retry_count_witness :
  classify_image demo_str_float demo_service (net_always response_200_cat)
    demo_image 50 0.1%float 0
  = (Err (Exception (lit "Classification failed after all retries")), []).
Proof.
  apply no_attempt_without_retry_count; [discriminate|lia].
Defined.

(** X5. When every attempt is answered with a status that is neither 200
    nor in 400..499, [classify_image] sends [retry_count] requests one after
    the other with no sleep at all, and raises "API error <status>: <body>"
    for the last answer. *)
Theorem server_errors_never_back_off
    (str_float : float -> str) (self : ImageDetectionService)
    (net : nat -> Request -> post_outcome) (image_data : list byte)
    (max_tokens : Z) (temperature : float) (retry_count : Z) :
  let req := build_request self image_data max_tokens temperature in
  api_key self <> [] -> 0 < retry_count ->
  (forall a, (a < Z.to_nat retry_count)%nat ->
     exists r, net a req = Responds r /\ status_code r <> 200 /\
               ~ (400 <= status_code r < 500)) ->
  exists r tr,
    net (Z.to_nat retry_count - 1)%nat req = Responds r /\
    classify_image str_float self net image_data max_tokens temperature
      retry_count = (Err (Exception (error_msg r)), tr) /\
    posts tr = Z.to_nat retry_count /\
    sleeps tr = [].
Proof.
  intros req Hkey Hrc Hall.
  destruct (Z.to_nat retry_count) as [|n] eqn:Hn; [lia|].
  assert (Hout : forall a, (a < S n)%nat ->
            exists r, net a req = Responds r /\
              except_clauses str_float self (try_block (net a req))
              = NextAttempt (Exception (error_msg r))).
  { intros a Ha. destruct (Hall a Ha) as (r & Hr & H2 & H4).
    exists r. split; [exact Hr|]. rewrite Hr.
    apply server_error_outcome; assumption. }
  destruct (loop_all_retried str_float self net req retry_count (S n) 0 None)
    as [Hfst Hposts].
  { intros a Ha. destruct (Hout a) as (r & _ & ->); [lia|reflexivity]. }
  assert (Hsl : sleeps (snd (attempts str_float self net req retry_count
                               (S n) 0 None)) = []).
  { apply loop_all_continue. intros a Ha.
    destruct (Hout a) as (r' & _ & Hr'); [lia|]. eauto. }
  destruct (Hout n) as (r & Hr & Hor); [lia|].
  exists r. unfold classify_image.
  destruct (api_key self) as [|k ks]; [congruence|]. fold req. rewrite Hn.
  destruct (attempts str_float self net req retry_count (S n) 0 None) as [x tr].
  cbn [fst snd] in Hfst, Hposts, Hsl. cbn [Nat.add] in Hfst.
  rewrite Hor in Hfst. simpl in Hfst. subst x.
  exists tr. replace (S n - 1)%nat with n by lia.
  repeat split; assumption.
Qed.

Lemma server_errors_never_back_off_witness :
  exists r tr,
    net_always response_503 2%nat demo_request = Responds r /\
    classify_image demo_str_float demo_service (net_always response_503)
      demo_image 50 0.1%float 3 = (Err (Exception (error_msg r)), tr) /\
    posts tr = 3%nat /\ sleeps tr = [].
Proof.
  refine (server_errors_never_back_off demo_str_float demo_service
            (net_always response_503) demo_image 50 0.1%float 3 _ _ _).
  - discriminate.
  - reflexivity.
  - intros a _. eexists. split; [reflexivity|]. split; simpl; lia.
Defined.

(** X6. When every attempt times out, [classify_image] sends
    [retry_count] requests, sleeps 1, 2, 4, ..., 2 ** (retry_count - 2)
    seconds between them (nothing after the last one) and raises "Request
    timeout after <timeout>s". *)
Theorem timeouts_back_off_exponentially
    (str_float : float -> str) (self : ImageDetectionService)
    (net : nat -> Request -> post_outcome) (image_data : list byte)
    (max_tokens : Z) (temperature : float) (retry_count : Z) :
  let req := build_request self image_data max_tokens temperature in
  api_key self <> [] -> 0 < retry_count ->
  (forall a, (a < Z.to_nat retry_count)%nat ->
     exists m, net a req = Throws (TimeoutException m)) ->
  exists tr,
    classify_image str_float self net image_data max_tokens temperature
      retry_count
    = (Err (Exception (lit "Request timeout after "
                       ++ str_float (timeout self) ++ lit "s")), tr) /\
    posts tr = Z.to_nat retry_count /\
    sleeps tr = List.map (fun a => 2 ^ Z.of_nat a)
                  (seq 0 (Z.to_nat retry_count - 1)).
Proof.
  intros req Hkey Hrc Hall.
  destruct (Z.to_nat retry_count) as [|n] eqn:Hn; [lia|].
  assert (Hout : forall a, (a < S n)%nat ->
            except_clauses str_float self (try_block (net a req))
            = Backoff (Exception (lit "Request timeout after "
                                  ++ str_float (timeout self) ++ lit "s"))).
  { intros a Ha. destruct (Hall a Ha) as (m & ->). reflexivity. }
  destruct (loop_all_retried str_float self net req retry_count (S n) 0 None)
    as [Hfst Hposts].
  { intros a Ha. rewrite Hout; [reflexivity|lia]. }
  assert (Hsl : sleeps (snd (attempts str_float self net req retry_count
                               (S n) 0 None))
                = List.map (fun a => 2 ^ Z.of_nat a) (seq 0 (S n - 1))).
  { apply loop_all_backoff; [lia|]. intros a Ha. rewrite Hout by lia. eauto. }
  unfold classify_image.
  destruct (api_key self) as [|k ks]; [congruence|]. fold req. rewrite Hn.
  destruct (attempts str_float self net req retry_count (S n) 0 None) as [x tr].
  cbn [fst snd] in Hfst, Hposts, Hsl. cbn [Nat.add] in Hfst.
  rewrite (Hout n) in Hfst by lia. simpl in Hfst. subst x.
  exists tr. repeat split; assumption.
Qed.

Lemma timeouts_back_off_exponentially_witness :
  exists tr,
    classify_image demo_str_float demo_service
      (net_always (Throws (TimeoutException (lit "timed out"))))
      demo_image 50 0.1%float 4
    = (Err (Exception (lit "Request timeout after 30.0s")), tr) /\
    posts tr = 4%nat /\
    sleeps tr = [1; 2; 4].
Proof.
  refine (timeouts_back_off_exponentially demo_str_float demo_service
            (net_always (Throws (TimeoutException (lit "timed out"))))
            demo_image 50 0.1%float 4 _ _ _).
  - discriminate.
  - reflexivity.
  - intros a _. eexists. reflexivity.
Defined.

(** X7. Whatever the network does, the time [classify_image] spends
    sleeping is at most 2 ** (retry_count - 1) - 1 seconds: 3 seconds for
    the default of three attempts. *)
Theorem total_backoff_bounded
    (str_float : float -> str) (self : ImageDetectionService)
    (net : nat -> Request -> post_outcome) (image_data : list byte)
    (max_tokens : Z) (temperature : float) (retry_count : Z) :
  1 <= retry_count ->
  total (sleeps (snd (classify_image str_float self net image_data max_tokens
                        temperature retry_count)))
  <= 2 ^ (retry_count - 1) - 1.
Proof.
  intros Hrc.
  assert (Hge : 1 <= 2 ^ (retry_count - 1)).
  { change 1 with (2 ^ 0) at 1. apply Z.pow_le_mono_r; lia. }
  unfold classify_image. destruct (api_key self) as [|k ks].
  - simpl. lia.
  - pose proof (loop_total_sleep str_float self net
                  (build_request self image_data max_tokens temperature)
                  retry_count (Z.to_nat retry_count) 0 None) as H.
    destruct (attempts _ _ _ _ _ _ _ _) as [[c|l] tr]; simpl in *; lia.
Qed.

Lemma total_backoff_bounded_witness :
  total (sleeps (snd (classify_image demo_str_float demo_service
                        (net_always response_404) demo_image 50 0.1%float 3)))
  <= 3.
Proof.
  apply (total_backoff_bounded demo_str_float demo_service
           (net_always response_404) demo_image 50 0.1%float 3).
  lia.
Defined.

(** X8. With a key configured and at least two attempts allowed, a first
    answer with a status in 400..499 ends [classify_image] after that one
    request exactly when "API error <status>: <body>" holds "400", "401" or
    "403" somewhere; when it does not, the call sleeps one second and sends a
    second request. *)
Theorem client_error_stops_only_on_digits
    (str_float : float -> str) (self : ImageDetectionService)
    (net : nat -> Request -> post_outcome) (image_data : list byte)
    (max_tokens : Z) (temperature : float) (retry_count : Z) (r : Response) :
  let req := build_request self image_data max_tokens temperature in
  api_key self <> [] -> 2 <= retry_count ->
  net 0%nat req = Responds r -> 400 <= status_code r < 500 ->
  if has_client_code (error_msg r)
  then classify_image str_float self net image_data max_tokens temperature
         retry_count = (Err (Exception (error_msg r)), [EvPost 0 req])
  else exists tr,
         snd (classify_image str_float self net image_data max_tokens
                temperature retry_count)
         = EvPost 0 req :: EvSleep 1 :: EvPost 1 req :: tr.
Proof.
  intros req Hkey Hrc Hnet H4xx.
  pose proof (client_error_outcome str_float self r H4xx) as Hout.
  rewrite <- Hnet in Hout.
  unfold classify_image. destruct (api_key self) as [|k ks]; [congruence|].
  fold req.
  destruct (Z.to_nat retry_count) as [|[|todo]] eqn:Hn; try lia.
  destruct (has_client_code (error_msg r)).
  - rewrite (loop_breaks _ _ _ _ _ _ _ _ _ Hout). reflexivity.
  - rewrite (loop_backs_off _ _ _ _ _ _ _ _ _ Hout).
    destruct (loop_first_post str_float self net req retry_count todo 1
                (Some (Exception (error_msg r)))) as [tr Htr].
    unfold backoff.
    destruct (Z.of_nat 0 <? retry_count - 1) eqn:Hlt;
      [|apply Z.ltb_ge in Hlt; clear -Hlt Hrc; lia].
    destruct (attempts str_float self net req retry_count (S todo) 1 _)
      as [[c|l] tr'] eqn:Hloop; simpl in Htr; subst tr';
      simpl; exists tr; reflexivity.
Qed.

Lemma client_error_stops_only_on_digits_witness :
  exists tr,
    snd (classify_image demo_str_float demo_service (net_always response_404)
           demo_image 50 0.1%float 3)
    = EvPost 0 demo_request :: EvSleep 1 :: EvPost 1 demo_request :: tr.
Proof.
  refine (client_error_stops_only_on_digits demo_str_float demo_service
            (net_always response_404) demo_image 50 0.1%float 3
            {| status_code := 404; text := lit "Not Found"; json := not_json |}
            _ _ _ _).
  - discriminate.
  - lia.
  - reflexivity.
  - simpl. lia.
Defined.

(** X9. When the first [failures] attempts fail and are retried and the
    next one, still within [retry_count], gets a classification,
    [classify_image] returns that classification after exactly
    [failures + 1] requests. *)
Theorem success_after_retried_failures
    (str_float : float -> str) (self : ImageDetectionService)
    (net : nat -> Request -> post_outcome) (image_data : list byte)
    (max_tokens : Z) (temperature : float) (retry_count : Z)
    (failures : nat) (c : str) :
  let req := build_request self image_data max_tokens temperature in
  let outcome := fun a => except_clauses str_float self (try_block (net a req)) in
  api_key self <> [] -> Z.of_nat failures < retry_count ->
  (forall a, (a < failures)%nat -> retried (outcome a) = true) ->
  outcome failures = Returns c ->
  exists tr,
    classify_image str_float self net image_data max_tokens temperature
      retry_count = (Ok c, tr) /\
    posts tr = S failures.
Proof.
  intros req outcome Hkey Hrc Hfail Hret.
  unfold classify_image. destruct (api_key self) as [|k ks]; [congruence|].
  fold req.
  replace (Z.to_nat retry_count)
    with (failures + S (Z.to_nat retry_count - S failures))%nat by lia.
  destruct (loop_retried_then_returns str_float self net req retry_count
              failures (Z.to_nat retry_count - S failures) 0 None c)
    as [Hfst Hposts].
  - intros a Ha. apply Hfail. lia.
  - exact Hret.
  - destruct (attempts _ _ _ _ _ _ _ _) as [x tr]. simpl in Hfst, Hposts.
    subst x. exists tr. split; [reflexivity|exact Hposts].
Qed.

Lemma success_after_retried_failures_witness :
  exists tr,
    classify_image demo_str_float demo_service net_503_503_200 demo_image 50
      0.1%float 3 = (Ok (lit "cat"), tr) /\
    posts tr = 3%nat.
Proof.
  refine (success_after_retried_failures demo_str_float demo_service
            net_503_503_200 demo_image 50 0.1%float 3 2 (lit "cat") _ _ _ _).
  - discriminate.
  - reflexivity.
  - intros [|[|a]] Ha; [reflexivity|reflexivity|lia].
  - reflexivity.
Defined.

(** X10. A classification that [classify_image] returns neither starts nor
    ends with a whitespace character, whatever the network answered. *)
Theorem classification_has_no_outer_whitespace
    (str_float : float -> str) (self : ImageDetectionService)
    (net : nat -> Request -> post_outcome) (image_data : list byte)
    (max_tokens : Z) (temperature : float) (retry_count : Z) (c : str) :
  fst (classify_image str_float self net image_data max_tokens temperature
         retry_count) = Ok c ->
  (forall x rest, c = x :: rest -> isspace x = false) /\
  (forall front y, c = front ++ [y] -> isspace y = false).
Proof.
  unfold classify_image. destruct (api_key self) as [|k ks]; [discriminate|].
  pose proof (attempts_return_stripped str_float self net
                (build_request self image_data max_tokens temperature)
                retry_count (Z.to_nat retry_count) 0 None) as H.
  destruct (attempts _ _ _ _ _ _ _ _) as [[c'|l] tr]; simpl in *;
    [|discriminate].
  intros [= <-]. destruct (H c' eq_refl) as [s ->]. split.
  - intros x rest Hx. exact (strip_first _ _ _ Hx).
  - intros front y Hy. exact (strip_last _ _ _ Hy).
Qed.

Lemma classification_has_no_outer_whitespace_witness :
  (forall x rest, lit "cat" = x :: rest -> isspace x = false) /\
  (forall front y, lit "cat" = front ++ [y] -> isspace y = false).
Proof.
  apply (classification_has_no_outer_whitespace demo_str_float demo_service
           (net_always response_200_cat) demo_image 50 0.1%float 3).
  reflexivity.
Defined.

(* ===================================================================== *)
(** * Further properties of [classify_batch] *)
(* ===================================================================== *)

(** X11. With [max_concurrent = 0] and at least one image, no schedule
    brings [classify_batch] to return: no task is ever admitted, and
    [gather] waits for ever. *)
Theorem zero_cap_batch_never_returns
    (str_float : float -> str) (self : ImageDetectionService)
    (nets : nat -> nat -> Request -> post_outcome)
    (images_data : list (list byte)) (schedule : list action) :
  images_data <> [] ->
  classify_batch str_float self nets images_data 0 schedule = Ok None.
Proof.
  intros Hne. unfold classify_batch, start. simpl.
  destruct schedule as [|a schedule]; simpl.
  - destruct images_data as [|d ds]; [congruence|]. reflexivity.
  - rewrite zero_cap_admits_nothing. reflexivity.
Qed.

Lemma zero_cap_batch_never_returns_witness :
  classify_batch demo_str_float demo_service demo_nets demo_images 0
    [Acquire 0; Release 0] = Ok None.
Proof.
  apply zero_cap_batch_never_returns. discriminate.
Defined.

(** X12. A run of [classify_batch] that returns took exactly two steps per
    image, one admission and one release each. *)
Theorem returned_batch_took_two_steps_per_image
    (str_float : float -> str) (self : ImageDetectionService)
    (nets : nat -> nat -> Request -> post_outcome)
    (images_data : list (list byte)) (max_concurrent : Z)
    (schedule : list action) (results : list item) :
  classify_batch str_float self nets images_data max_concurrent schedule
  = Ok (Some results) ->
  length schedule = (2 * length images_data)%nat.
Proof.
  unfold classify_batch.
  destruct (start images_data max_concurrent) as [st0|] eqn:Hst; simpl;
    [|discriminate].
  destruct (run str_float self nets schedule st0) as [st|] eqn:Hrun;
    [|discriminate].
  intros [= Hg].
  pose proof (run_remaining _ _ _ _ _ _ Hrun) as Hr.
  apply start_inv in Hst as [_ ->]. simpl in Hr.
  rewrite remaining_spawn in Hr.
  apply gather_fmap in Hg. rewrite Hg in Hr.
  assert (Hz : forall rs : list item, remaining (Finished <$> rs) = 0%nat).
  { induction rs as [|r rs IH]; simpl; [reflexivity|exact IH]. }
  rewrite Hz in Hr. lia.
Qed.

Lemma returned_batch_took_two_steps_witness :
  length demo_schedule = (2 * length demo_images)%nat.
Proof.
  apply (returned_batch_took_two_steps_per_image demo_str_float demo_service
           demo_nets demo_images 2 demo_schedule demo_results).
  vm_compute. reflexivity.
Defined.

(* ===================================================================== *)
(** * The configuration and the connection test *)
(* ===================================================================== *)

Lemma startswith_same_length (a b : str) :
  length a = length b -> startswith a b = true -> a = b.
Proof.
  revert b. induction a as [|x a IH]; intros [|y b]; simpl; try discriminate.
  - reflexivity.
  - intros [= Hl] H. apply andb_true_iff in H as [Hx Ha].
    apply N.eqb_eq in Hx. subst y. f_equal. apply IH; assumption.
Qed.

Lemma str_eqb_eq (a b : str) : Py.str_eqb a b = true <-> a = b.
Proof.
  unfold Py.str_eqb. split.
  - intros H. apply andb_true_iff in H as [Hl Hs].
    apply Nat.eqb_eq in Hl. apply startswith_same_length; assumption.
  - intros <-. rewrite Nat.eqb_refl. simpl.
    induction a as [|x a IH]; simpl; [reflexivity|].
    rewrite N.eqb_refl. exact IH.
Qed.

(** X13. [validate_api_key] rejects exactly the empty key and the
    placeholder, and returns any other key unchanged. A service built from
    settings whose key it accepted never stops at "OpenRouter API key not
    configured": with at least one attempt allowed, [classify_image] sends
    its request. *)
Theorem validated_key_reaches_the_network
    (str_float : float -> str) (s : Settings)
    (net : nat -> Request -> post_outcome) (image_data : list byte)
    (max_tokens : Z) (temperature : float) (retry_count : Z) :
  ((exists e, validate_api_key (OPENROUTER_API_KEY s) = Err e) <->
   OPENROUTER_API_KEY s = [] \/ OPENROUTER_API_KEY s = placeholder_key) /\
  (forall k,
     validate_api_key (OPENROUTER_API_KEY s) = Ok k -> 0 < retry_count ->
     k = OPENROUTER_API_KEY s /\
     exists tr,
       snd (classify_image str_float (init s) net image_data max_tokens
              temperature retry_count)
       = EvPost 0 (build_request (init s) image_data max_tokens temperature)
         :: tr).
Proof.
  unfold validate_api_key. split.
  - split.
    + intros [e H]. destruct (OPENROUTER_API_KEY s) as [|c k]; [left; reflexivity|].
      simpl in H. destruct (Py.str_eqb (c :: k) placeholder_key) eqn:E;
        [|discriminate].
      right. apply str_eqb_eq. exact E.
    + intros [-> | ->]; [eexists; reflexivity|].
      eexists. reflexivity.
  - intros k H Hrc.
    destruct (OPENROUTER_API_KEY s) as [|c key] eqn:Hkey; [discriminate|].
    simpl in H. destruct (Py.str_eqb (c :: key) placeholder_key); [discriminate|].
    injection H as <-. split; [reflexivity|].
    unfold classify_image. simpl. rewrite Hkey.
    destruct (Z.to_nat retry_count) as [|todo] eqn:Hn; [lia|].
    destruct (loop_first_post str_float (init s) net
                (build_request (init s) image_data max_tokens temperature)
                retry_count todo 0 None) as [tr Htr].
    destruct (attempts _ _ _ _ _ _ _ _) as [[x|l] tr'];
      simpl in Htr; subst tr'; exists tr; reflexivity.
Qed.

Lemma validated_key_reaches_the_network_witness :
  lit "sk-test" = OPENROUTER_API_KEY demo_settings /\
  exists tr,
    snd (classify_image demo_str_float (init demo_settings)
           (net_always response_200_cat) demo_image 50 0.1%float 3)
    = EvPost 0 (build_request (init demo_settings) demo_image 50 0.1%float)
      :: tr.
Proof.
  refine (proj2 (validated_key_reaches_the_network demo_str_float demo_settings
            (net_always response_200_cat) demo_image 50 0.1%float 3)
            (lit "sk-test") _ _).
  - reflexivity.
  - reflexivity.
Defined.

(** X14. [health_check] never raises: it answers "healthy", with
    [models_available] true, exactly when the request for the list of models
    is answered with status 200, and "degraded", with [models_available]
    false, for any other status and for any exception of the request. *)
Theorem health_check_follows_the_models_listing
    (image_service : ImageDetectionService)
    (get : str -> list (str * str) -> post_outcome) :
  exists body,
    Router.health_check image_service get = Returned body /\
    ((exists response,
        get models_url (_get_headers image_service) = Responds response /\
        status_code response = 200) ->
     Router.status body = lit "healthy" /\ Router.models_available body = true) /\
    (~ (exists response,
          get models_url (_get_headers image_service) = Responds response /\
          status_code response = 200) ->
     Router.status body = lit "degraded" /\ Router.models_available body = false).
Proof.
  unfold Router.health_check, test_connection. eexists. split; [reflexivity|].
  simpl. destruct (get models_url (_get_headers image_service)) as [r|e].
  - destruct (status_code r =? 200) eqn:E.
    + split; [auto|]. intros H. exfalso. apply H. exists r. split; [reflexivity|lia].
    + split; [|auto]. intros (r' & [= <-] & H). lia.
  - split; [|auto]. intros (r' & H & _). discriminate.
Qed.

(* ===================================================================== *)
(** * The routes *)
(* ===================================================================== *)

Lemma posts_app (tr tr' : list event) :
  posts (tr ++ tr') = (posts tr + posts tr')%nat.
Proof.
  unfold posts. induction tr as [|ev tr IH]; simpl; [reflexivity|].
  destruct (is_post ev); simpl; rewrite IH; reflexivity.
Qed.

Lemma posts_of_a_call (str_float : float -> str) (self : ImageDetectionService)
    (net : nat -> Request -> post_outcome) (image_data : list byte)
    (max_tokens : Z) (temperature : float) :
  (posts (snd (classify_image str_float self net image_data max_tokens
                 temperature 3)) <= 3)%nat.
Proof.
  unfold classify_image. destruct (api_key self); [unfold posts; simpl; lia|].
  pose proof (loop_posts_bound str_float self net
                (build_request self image_data max_tokens temperature)
                3 3 0 None) as H.
  change (Z.to_nat 3) with 3%nat.
  destruct (attempts _ _ _ _ _ _ _ _) as [[c|l] tr]; exact H.
Qed.

(** X15. Whatever [max_tokens] the caller of the route gives, or none, the
    service is called with a value from 10 to 500; a value in that range is
    passed on unchanged, and every other one (zero and none included) is
    replaced by 50. *)
Theorem route_max_tokens_in_range (max_tokens : option Z) :
  10 <= Router.effective_max_tokens max_tokens <= 500 /\
  (forall m, max_tokens = Some m -> 10 <= m <= 500 ->
             Router.effective_max_tokens max_tokens = m) /\
  (forall m, max_tokens = Some m -> ~ (10 <= m <= 500) ->
             Router.effective_max_tokens max_tokens = 50) /\
  (max_tokens = None -> Router.effective_max_tokens max_tokens = 50).
Proof.
  unfold Router.effective_max_tokens. destruct max_tokens as [m|].
  - destruct (m =? 0) eqn:E0; destruct (m <? 10) eqn:E1;
      destruct (500 <? m) eqn:E2; simpl; try rewrite E0;
      repeat split; try discriminate; try lia;
      intros m' [= <-] H; try reflexivity; lia.
  - repeat split; try discriminate; try lia.
Qed.

(** X16. The temperature the route calls the service with is either the
    default 0.1 or the caller's own value, and the caller's value is kept
    only when it is not zero, not below 0 and not above 1. A caller's 0.0,
    which the request schema allows, is replaced by 0.1. *)
Theorem route_temperature_kept_or_default (temperature : option float) :
  (Router.effective_temperature temperature = 0.1%float \/
   temperature = Some (Router.effective_temperature temperature) /\
   PrimFloat.eqb (Router.effective_temperature temperature) 0%float = false /\
   PrimFloat.ltb (Router.effective_temperature temperature) 0%float = false /\
   PrimFloat.ltb 1%float (Router.effective_temperature temperature) = false) /\
  Router.effective_temperature (Some 0%float) = 0.1%float /\
  Router.effective_temperature None = 0.1%float.
Proof.
  split; [|split; reflexivity].
  unfold Router.effective_temperature. destruct temperature as [t|]; [|left; reflexivity].
  destruct (PrimFloat.eqb t 0%float) eqn:E0; simpl.
  - rewrite E0. left. reflexivity.
  - destruct (PrimFloat.ltb t 0%float) eqn:E1; simpl.
    + left. reflexivity.
    + destruct (PrimFloat.ltb 1%float t) eqn:E2; simpl.
      * left. reflexivity.
      * rewrite E0. right. auto.
Qed.

(** X17. The route [classify_image] turns away an upload whose content type
    is missing, empty or does not start with "image/", and one whose declared
    size is above 5 MB, with status 400 and before anything is sent to the
    API. *)
Theorem route_rejects_before_any_request
    (str_float : float -> str) (image_service : ImageDetectionService)
    (net : nat -> Request -> post_outcome) (file : UploadFile.t)
    (max_tokens : option Z) (temperature : option float) :
  Router.is_image file = false \/ Router.too_large file = true ->
  exists detail,
    Router.classify_image str_float image_service net file max_tokens temperature
    = (HTTPException 400 detail, []).
Proof.
  unfold Router.classify_image. intros [H|H].
  - rewrite H. simpl. eauto.
  - destruct (Router.is_image file); simpl; [rewrite H|]; eauto.
Qed.

Lemma route_rejects_before_any_request_witness :
  exists detail,
    Router.classify_image demo_str_float demo_service
      (net_always response_200_cat)
      {| UploadFile.filename := Some (lit "notes.txt");
         UploadFile.content_type := Some (lit "text/plain");
         UploadFile.size := Some 12;
         UploadFile.read := demo_image |}
      None None
    = (HTTPException 400 detail, []).
Proof.
  apply route_rejects_before_any_request. left. reflexivity.
Defined.

(** X18. For an upload the route accepts (an image, not declared above
    5 MB), the answer follows the service: a classification comes back in a
    body with [success] true, the file's name (or "unknown" when it has
    none) and the number of bytes read; any exception of the service, a 4xx
    of the API included, becomes status 500 with "Failed to classify image: "
    and the text of the exception. At most three requests are sent. *)
Theorem route_answer_follows_the_service
    (str_float : float -> str) (image_service : ImageDetectionService)
    (net : nat -> Request -> post_outcome) (file : UploadFile.t)
    (max_tokens : option Z) (temperature : option float) :
  Router.is_image file = true -> Router.too_large file = false ->
  match classify_image str_float image_service net (UploadFile.read file)
          (Router.effective_max_tokens max_tokens)
          (Router.effective_temperature temperature) 3 with
  | (Ok c, tr) =>
      exists body,
        Router.classify_image str_float image_service net file max_tokens
          temperature = (Returned body, tr) /\
        Router.success body = true /\
        Router.classification body = c /\
        Router.file_size body = length (UploadFile.read file) /\
        Router.filename body <> [] /\
        (forall name, UploadFile.filename file = Some name -> name <> [] ->
                      Router.filename body = name) /\
        (posts tr <= 3)%nat
  | (Err e, tr) =>
      Router.classify_image str_float image_service net file max_tokens
        temperature
      = (HTTPException 500 (lit "Failed to classify image: " ++ str_exn e), tr) /\
      (posts tr <= 3)%nat
  end.
Proof.
  intros Himg Hsize. unfold Router.classify_image. rewrite Himg, Hsize. simpl.
  pose proof (posts_of_a_call str_float image_service net (UploadFile.read file)
                (Router.effective_max_tokens max_tokens)
                (Router.effective_temperature temperature)) as Hp.
  destruct (classify_image _ _ _ _ _ _ _) as [[c|e] tr]; simpl in Hp.
  - eexists. split; [reflexivity|]. simpl. repeat split; try assumption.
    + destruct (UploadFile.filename file) as [[|x name]|]; discriminate.
    + intros name -> Hne. destruct name; [congruence|reflexivity].
  - split; [reflexivity|exact Hp].
Qed.

Lemma route_answer_follows_the_service_witness :
  Router.classify_image demo_str_float demo_service (net_always response_404)
    {| UploadFile.filename := None;
       UploadFile.content_type := Some (lit "image/png");
       UploadFile.size := None;
       UploadFile.read := demo_image |}
    (Some 7) (Some 2%float)
  = (HTTPException 500
       (lit "Failed to classify image: API error 404: Not Found"),
     [EvPost 0 demo_request; EvSleep 1;
      EvPost 1 demo_request; EvSleep 2;
      EvPost 2 demo_request]).
Proof.
  refine (proj1 (route_answer_follows_the_service demo_str_float demo_service
            (net_always response_404)
            {| UploadFile.filename := None;
               UploadFile.content_type := Some (lit "image/png");
               UploadFile.size := None;
               UploadFile.read := demo_image |}
            (Some 7) (Some 2%float) _ _)).
  - reflexivity.
  - reflexivity.
Defined.

(** ** The batch route *)

Section BatchRoute.

Variable str_float : float -> str.
Variable image_service : ImageDetectionService.
Variable nets : nat -> nat -> Request -> post_outcome.

Local Abbreviation classify_file := (Router.classify_file str_float image_service).
Local Abbreviation classify_files := (Router.classify_files str_float image_service nets).

Lemma classify_file_filename (net : nat -> Request -> post_outcome)
    (file : UploadFile.t) :
  Router.entry_filename (fst (classify_file net file)) = UploadFile.filename file.
Proof.
  unfold Router.classify_file. destruct (Router.is_image file); simpl; [|reflexivity].
  destruct (classify_image _ _ _ _ _ _ _) as [[c|e] tr]; reflexivity.
Qed.

Lemma classify_file_posts (net : nat -> Request -> post_outcome)
    (file : UploadFile.t) :
  (posts (snd (classify_file net file))
   <= if Router.is_image file then 3 else 0)%nat.
Proof.
  unfold Router.classify_file. destruct (Router.is_image file); simpl.
  - pose proof (posts_of_a_call str_float image_service net
                  (UploadFile.read file) 50 0.1%float) as H.
    destruct (classify_image _ _ _ _ _ _ _) as [[c|e] tr]; exact H.
  - unfold posts. simpl. lia.
Qed.

Lemma classify_files_cons (file : UploadFile.t) (files : list UploadFile.t)
    (i : nat) :
  classify_files (file :: files) i
  = (fst (classify_file (nets i) file) :: fst (classify_files files (S i)),
     snd (classify_file (nets i) file) ++ snd (classify_files files (S i))).
Proof.
  simpl. destruct (Router.classify_file _ _ _ _) as [r tr].
  destruct (Router.classify_files _ _ _ _ _) as [rs tr']. reflexivity.
Qed.

Lemma classify_files_lookup (files : list UploadFile.t) (i j : nat)
    (file : UploadFile.t) :
  files !! j = Some file ->
  fst (classify_files files i) !! j
  = Some (fst (classify_file (nets (i + j)) file)).
Proof.
  revert i j. induction files as [|f files IH]; intros i [|j] H;
    try discriminate; rewrite classify_files_cons; simpl in *.
  - injection H as ->. rewrite Nat.add_0_r. reflexivity.
  - rewrite (IH (S i) j H). replace (i + S j)%nat with (S i + j)%nat by lia.
    reflexivity.
Qed.

Lemma classify_files_length (files : list UploadFile.t) (i : nat) :
  length (fst (classify_files files i)) = length files.
Proof.
  revert i. induction files as [|f files IH]; intros i; [reflexivity|].
  rewrite classify_files_cons. simpl. rewrite IH. reflexivity.
Qed.

Lemma classify_files_filenames (files : list UploadFile.t) (i : nat) :
  List.map Router.entry_filename (fst (classify_files files i))
  = List.map UploadFile.filename files.
Proof.
  revert i. induction files as [|f files IH]; intros i; [reflexivity|].
  rewrite classify_files_cons. simpl.
  rewrite classify_file_filename, IH. reflexivity.
Qed.

Lemma classify_files_posts (files : list UploadFile.t) (i : nat) :
  (posts (snd (classify_files files i))
   <= 3 * length (List.filter Router.is_image files))%nat.
Proof.
  revert i. induction files as [|f files IH]; intros i.
  - unfold posts. simpl. lia.
  - rewrite classify_files_cons. simpl snd. rewrite posts_app.
    pose proof (classify_file_posts (nets i) f) as Hf.
    specialize (IH (S i)). simpl.
    destruct (Router.is_image f); simpl length; lia.
Qed.

(** Files that differ in their declared size only are treated alike. *)
Lemma classify_files_ignore_size (files files' : list UploadFile.t) (i : nat) :
  Forall2 (fun f g =>
             UploadFile.filename f = UploadFile.filename g /\
             UploadFile.content_type f = UploadFile.content_type g /\
             UploadFile.read f = UploadFile.read g) files files' ->
  classify_files files i = classify_files files' i.
Proof.
  intros H. revert i. induction H as [|f g files files' (Hn & Hc & Hr) _ IH];
    intros i; [reflexivity|].
  rewrite !classify_files_cons, IH.
  assert (Hfile : classify_file (nets i) f = classify_file (nets i) g).
  { unfold Router.classify_file, Router.is_image. rewrite Hn, Hc, Hr. reflexivity. }
  rewrite Hfile. reflexivity.
Qed.

End BatchRoute.

Lemma filter_partition_length {A : Type} (p : A -> bool) (l : list A) :
  (length (List.filter p l) + length (List.filter (fun x => negb (p x)) l)
   = length l)%nat.
Proof.
  induction l as [|x l IH]; simpl; [reflexivity|].
  destruct (p x); simpl; lia.
Qed.

Lemma filter_length_le {A : Type} (p : A -> bool) (l : list A) :
  (length (List.filter p l) <= length l)%nat.
Proof.
  induction l as [|x l IH]; simpl; [lia|]. destruct (p x); simpl; lia.
Qed.

(** X19. The route [classify_batch_images] turns away more than ten files
    with status 400 before anything is sent. For ten files or fewer it always
    answers: [batch_results] has one entry per file, in the order of the
    files and under their names; [total_files] is their number and
    [successful + failed] adds up to it; and no more than three requests per
    image file, thirty in all, are sent. *)
Theorem route_batch_counts
    (str_float : float -> str) (image_service : ImageDetectionService)
    (nets : nat -> nat -> Request -> post_outcome) (files : list UploadFile.t) :
  ((10 < length files)%nat ->
   exists detail,
     Router.classify_batch_images str_float image_service nets files
     = (HTTPException 400 detail, [])) /\
  ((length files <= 10)%nat ->
   exists body tr,
     Router.classify_batch_images str_float image_service nets files
     = (Returned body, tr) /\
     Router.total_files body = length files /\
     length (Router.batch_results body) = length files /\
     (Router.successful body + Router.failed body)%nat = length files /\
     List.map Router.entry_filename (Router.batch_results body)
     = List.map UploadFile.filename files /\
     (posts tr <= 3 * length (List.filter Router.is_image files))%nat /\
     (posts tr <= 30)%nat).
Proof.
  unfold Router.classify_batch_images. split.
  - intros H. destruct (10 <? length files)%nat eqn:E.
    + eauto.
    + apply Nat.ltb_ge in E. lia.
  - intros H. destruct (10 <? length files)%nat eqn:E.
    + apply Nat.ltb_lt in E. lia.
    + pose proof (classify_files_length str_float image_service nets files 0) as Hl.
      pose proof (classify_files_filenames str_float image_service nets files 0) as Hn.
      pose proof (classify_files_posts str_float image_service nets files 0) as Hp.
      pose proof (filter_length_le Router.is_image files) as Hf.
      destruct (Router.classify_files _ _ _ _ _) as [results tr].
      simpl in Hl, Hn, Hp. eexists. exists tr. split; [reflexivity|]. simpl.
      repeat split; try assumption; try lia.
      rewrite filter_partition_length. exact Hl.
Qed.

Lemma route_batch_counts_witness :
  exists detail,
    Router.classify_batch_images demo_str_float demo_service demo_nets
      (repeat {| UploadFile.filename := None;
                 UploadFile.content_type := Some (lit "image/png");
                 UploadFile.size := None;
                 UploadFile.read := demo_image |} 11)
    = (HTTPException 400 detail, []).
Proof.
  apply (proj1 (route_batch_counts demo_str_float demo_service demo_nets _)).
  simpl. lia.
Defined.

(** X20. In the batch route each file's entry depends on that file alone:
    a file that is not an image gets "Not a valid image file" and no request;
    an image gets [Success] with the classification and the number of bytes
    read when its own call returns, and [Failure] with the text of the
    exception when its own call raises. A failure of one file leaves the
    entries of the others as they are. *)
Theorem route_batch_entries_are_independent
    (str_float : float -> str) (image_service : ImageDetectionService)
    (nets : nat -> nat -> Request -> post_outcome) (files : list UploadFile.t) :
  (length files <= 10)%nat ->
  exists body tr,
    Router.classify_batch_images str_float image_service nets files
    = (Returned body, tr) /\
    forall i file,
      files !! i = Some file ->
      Router.batch_results body !! i
      = Some
          (if Router.is_image file
           then
             match fst (classify_image str_float image_service (nets i)
                          (UploadFile.read file) 50 0.1%float 3) with
             | Ok classification =>
                 Router.Success (UploadFile.filename file) classification
                   (length (UploadFile.read file))
             | Err e => Router.Failure (UploadFile.filename file) (str_exn e)
             end
           else Router.Failure (UploadFile.filename file)
                  (lit "Not a valid image file")).
Proof.
  intros H. unfold Router.classify_batch_images.
  destruct (10 <? length files)%nat eqn:E; [apply Nat.ltb_lt in E; lia|].
  pose proof (classify_files_lookup str_float image_service nets files 0) as Hl.
  destruct (Router.classify_files _ _ _ _ _) as [results tr].
  eexists. exists tr. split; [reflexivity|]. simpl.
  intros i file Hi. simpl in Hl. rewrite (Hl i file Hi). f_equal.
  unfold Router.classify_file. destruct (Router.is_image file); simpl; [|reflexivity].
  destruct (classify_image _ _ _ _ _ _ _) as [[c|e] tr']; reflexivity.
Qed.

Lemma route_batch_entries_are_independent_witness :
  exists body tr,
    Router.classify_batch_images demo_str_float demo_service demo_nets
      [ {| UploadFile.filename := Some (lit "a.png");
           UploadFile.content_type := Some (lit "image/png");
           UploadFile.size := None;
           UploadFile.read := demo_image |};
        {| UploadFile.filename := Some (lit "b.png");
           UploadFile.content_type := Some (lit "image/png");
           UploadFile.size := None;
           UploadFile.read := demo_image |};
        {| UploadFile.filename := Some (lit "c.txt");
           UploadFile.content_type := Some (lit "text/plain");
           UploadFile.size := None;
           UploadFile.read := [] |} ]
    = (Returned body, tr) /\
    forall i file,
      [ {| UploadFile.filename := Some (lit "a.png");
           UploadFile.content_type := Some (lit "image/png");
           UploadFile.size := None;
           UploadFile.read := demo_image |};
        {| UploadFile.filename := Some (lit "b.png");
           UploadFile.content_type := Some (lit "image/png");
           UploadFile.size := None;
           UploadFile.read := demo_image |};
        {| UploadFile.filename := Some (lit "c.txt");
           UploadFile.content_type := Some (lit "text/plain");
           UploadFile.size := None;
           UploadFile.read := [] |} ] !! i = Some file ->
      Router.batch_results body !! i
      = Some
          (if Router.is_image file
           then
             match fst (classify_image demo_str_float demo_service (demo_nets i)
                          (UploadFile.read file) 50 0.1%float 3) with
             | Ok classification =>
                 Router.Success (UploadFile.filename file) classification
                   (length (UploadFile.read file))
             | Err e => Router.Failure (UploadFile.filename file) (str_exn e)
             end
           else Router.Failure (UploadFile.filename file)
                  (lit "Not a valid image file")).
Proof.
  apply route_batch_entries_are_independent. simpl. lia.
Defined.

(** X21. The batch route never reads a file's declared size: files that
    differ only in it get the same answer, so the 5 MB limit of the single
    route is not applied to a batch. *)
Theorem route_batch_ignores_declared_size
    (str_float : float -> str) (image_service : ImageDetectionService)
    (nets : nat -> nat -> Request -> post_outcome)
    (files files' : list UploadFile.t) :
  Forall2 (fun f g =>
             UploadFile.filename f = UploadFile.filename g /\
             UploadFile.content_type f = UploadFile.content_type g /\
             UploadFile.read f = UploadFile.read g) files files' ->
  Router.classify_batch_images str_float image_service nets files
  = Router.classify_batch_images str_float image_service nets files'.
Proof.
  intros H. unfold Router.classify_batch_images.
  rewrite (Forall2_length _ _ _ H).
  rewrite (classify_files_ignore_size str_float image_service nets _ _ 0 H).
  reflexivity.
Qed.

Lemma route_batch_ignores_declared_size_witness :
  Router.classify_batch_images demo_str_float demo_service demo_nets
    [ {| UploadFile.filename := Some (lit "big.png");
         UploadFile.content_type := Some (lit "image/png");
         UploadFile.size := Some (50 * 1024 * 1024);
         UploadFile.read := demo_image |} ]
  = Router.classify_batch_images demo_str_float demo_service demo_nets
      [ {| UploadFile.filename := Some (lit "big.png");
           UploadFile.content_type := Some (lit "image/png");
           UploadFile.size := Some 3;
           UploadFile.read := demo_image |} ].
Proof.
  apply route_batch_ignores_declared_size.
  repeat constructor.
Defined.

(* ===================================================================== *)
(** * The encoded image *)
(* ===================================================================== *)

Lemma in_below (n : nat) (x : N) : (x < N.of_nat n)%N -> In x (below n).
Proof.
  intros H. unfold below. apply in_map_iff. exists (N.to_nat x).
  split; [apply N2Nat.id|]. apply in_seq. lia.
Qed.

Lemma holds_below_spec (n : nat) (P : N -> N -> bool) (a b : N) :
  holds_below n P = true ->
  (a < N.of_nat n)%N -> (b < N.of_nat n)%N -> P a b = true.
Proof.
  unfold holds_below. intros H Ha Hb.
  rewrite forallb_forall in H. specialize (H a (in_below _ _ Ha)).
  rewrite forallb_forall in H. exact (H b (in_below _ _ Hb)).
Qed.

Ltac by_bytes P x y :=
  apply N.eqb_eq;
  apply (holds_below_spec 256 P x y);
  [vm_compute; reflexivity | simpl; lia | simpl; lia].

Ltac by_bytes_lt P x y :=
  apply N.ltb_lt;
  apply (holds_below_spec 256 P x y);
  [vm_compute; reflexivity | simpl; lia | simpl; lia].

Section OneByte.

Variable a : N.
Hypothesis Ha : (a <= 255)%N.

Lemma byte_from_6_2 : N.lor (N.shiftl (N.shiftr a 2) 2) (N.land a 3) = a.
Proof.
  by_bytes (fun a _ : N => N.lor (N.shiftl (N.shiftr a 2) 2) (N.land a 3) =? a)%N a 0%N.
Qed.

Lemma byte_from_4_4 : N.lor (N.shiftl (N.shiftr a 4) 4) (N.land a 15) = a.
Proof.
  by_bytes (fun a _ : N => N.lor (N.shiftl (N.shiftr a 4) 4) (N.land a 15) =? a)%N a 0%N.
Qed.

Lemma byte_from_2_6 : N.lor (N.shiftl (N.shiftr a 6) 6) (N.land a 63) = a.
Proof.
  by_bytes (fun a _ : N => N.lor (N.shiftl (N.shiftr a 6) 6) (N.land a 63) =? a)%N a 0%N.
Qed.

Lemma first_sextet_bound : (N.shiftr a 2 < 64)%N.
Proof. by_bytes_lt (fun a _ : N => N.shiftr a 2 <? 64)%N a 0%N. Qed.

Lemma fourth_sextet_bound : (N.land a 63 < 64)%N.
Proof. by_bytes_lt (fun a _ : N => N.land a 63 <? 64)%N a 0%N. Qed.

End OneByte.

Section TwoBytes.

Variables a b : N.
Hypothesis Ha : (a <= 255)%N.
Hypothesis Hb : (b <= 255)%N.

Lemma second_sextet_high :
  N.shiftr (N.lor (N.shiftl (N.land a 3) 4) (N.shiftr b 4)) 4 = N.land a 3.
Proof.
  by_bytes (fun a b =>
    N.shiftr (N.lor (N.shiftl (N.land a 3) 4) (N.shiftr b 4)) 4 =? N.land a 3)%N a b.
Qed.

Lemma second_sextet_low :
  N.land (N.lor (N.shiftl (N.land a 3) 4) (N.shiftr b 4)) 15 = N.shiftr b 4.
Proof.
  by_bytes (fun a b =>
    N.land (N.lor (N.shiftl (N.land a 3) 4) (N.shiftr b 4)) 15 =? N.shiftr b 4)%N a b.
Qed.

Lemma third_sextet_high :
  N.shiftr (N.lor (N.shiftl (N.land a 15) 2) (N.shiftr b 6)) 2 = N.land a 15.
Proof.
  by_bytes (fun a b =>
    N.shiftr (N.lor (N.shiftl (N.land a 15) 2) (N.shiftr b 6)) 2 =? N.land a 15)%N a b.
Qed.

Lemma third_sextet_low :
  N.land (N.lor (N.shiftl (N.land a 15) 2) (N.shiftr b 6)) 3 = N.shiftr b 6.
Proof.
  by_bytes (fun a b =>
    N.land (N.lor (N.shiftl (N.land a 15) 2) (N.shiftr b 6)) 3 =? N.shiftr b 6)%N a b.
Qed.

Lemma second_sextet_bound :
  (N.lor (N.shiftl (N.land a 3) 4) (N.shiftr b 4) < 64)%N.
Proof.
  by_bytes_lt (fun a b =>
    N.lor (N.shiftl (N.land a 3) 4) (N.shiftr b 4) <? 64)%N a b.
Qed.

Lemma third_sextet_bound :
  (N.lor (N.shiftl (N.land a 15) 2) (N.shiftr b 6) < 64)%N.
Proof.
  by_bytes_lt (fun a b =>
    N.lor (N.shiftl (N.land a 15) 2) (N.shiftr b 6) <? 64)%N a b.
Qed.

End TwoBytes.

Lemma sextet_inj (i j : N) :
  (i < 64)%N -> (j < 64)%N -> Base64.sextet i = Base64.sextet j -> i = j.
Proof.
  intros Hi Hj H.
  pose proof (holds_below_spec 64
                (fun i j => implb (Base64.sextet i =? Base64.sextet j)
                                  (i =? j))%N i j) as C.
  cbv beta in C. rewrite H, N.eqb_refl in C. simpl in C.
  apply N.eqb_eq. apply C; [vm_compute; reflexivity | simpl; lia | simpl; lia].
Qed.

Lemma sextet_not_pad (i : N) : (i < 64)%N -> Base64.sextet i <> Base64.pad.
Proof.
  intros Hi H.
  pose proof (holds_below_spec 64
                (fun i _ => negb (Base64.sextet i =? Base64.pad))%N i 0%N) as C.
  cbv beta in C. rewrite H, N.eqb_refl in C. simpl in C.
  discriminate C; [vm_compute; reflexivity | simpl; lia | simpl; lia].
Qed.

Lemma sextet_ascii (i : N) : (Base64.sextet i < 128)%N.
Proof.
  unfold Base64.sextet.
  assert (H : Forall (fun c => (c < 128)%N) Base64.alphabet).
  { apply List.Forall_forall. intros c Hc.
    assert (Hb : forallb (fun c => (c <? 128)%N) Base64.alphabet = true)
      by (vm_compute; reflexivity).
    rewrite forallb_forall in Hb. apply N.ltb_lt. apply Hb. exact Hc. }
  destruct (Nat.lt_ge_cases (N.to_nat i) (length Base64.alphabet)) as [Hlt|Hge].
  - rewrite List.Forall_forall in H. apply H. apply nth_In. exact Hlt.
  - rewrite nth_overflow by exact Hge. lia.
Qed.

(** Lists, three elements at a time. *)
Lemma list_ind3 {A : Type} (P : list A -> Prop) :
  P [] -> (forall a, P [a]) -> (forall a b, P [a; b]) ->
  (forall a b c rest, P rest -> P (a :: b :: c :: rest)) ->
  forall l, P l.
Proof.
  intros H0 H1 H2 H3. fix IH 1.
  intros [|a [|b [|c rest]]]; [exact H0|apply H1|apply H2|].
  apply H3. apply IH.
Qed.

Lemma first_byte_determined (a b a' b' : N) :
  (a <= 255)%N -> (b <= 255)%N -> (a' <= 255)%N -> (b' <= 255)%N ->
  N.shiftr a 2 = N.shiftr a' 2 ->
  N.lor (N.shiftl (N.land a 3) 4) (N.shiftr b 4)
  = N.lor (N.shiftl (N.land a' 3) 4) (N.shiftr b' 4) ->
  a = a'.
Proof.
  intros Ha Hb Ha' Hb' H1 H2.
  rewrite <- (byte_from_6_2 a Ha), <- (byte_from_6_2 a' Ha').
  rewrite <- (second_sextet_high a b Ha Hb), <- (second_sextet_high a' b' Ha' Hb').
  rewrite H1, H2. reflexivity.
Qed.

Lemma second_byte_determined (a b c a' b' c' : N) :
  (a <= 255)%N -> (b <= 255)%N -> (c <= 255)%N ->
  (a' <= 255)%N -> (b' <= 255)%N -> (c' <= 255)%N ->
  N.lor (N.shiftl (N.land a 3) 4) (N.shiftr b 4)
  = N.lor (N.shiftl (N.land a' 3) 4) (N.shiftr b' 4) ->
  N.lor (N.shiftl (N.land b 15) 2) (N.shiftr c 6)
  = N.lor (N.shiftl (N.land b' 15) 2) (N.shiftr c' 6) ->
  b = b'.
Proof.
  intros Ha Hb Hc Ha' Hb' Hc' H2 H3.
  rewrite <- (byte_from_4_4 b Hb), <- (byte_from_4_4 b' Hb').
  rewrite <- (second_sextet_low a b Ha Hb), <- (second_sextet_low a' b' Ha' Hb').
  rewrite <- (third_sextet_high b c Hb Hc), <- (third_sextet_high b' c' Hb' Hc').
  rewrite H2, H3. reflexivity.
Qed.

Lemma third_byte_determined (b c b' c' : N) :
  (b <= 255)%N -> (c <= 255)%N -> (b' <= 255)%N -> (c' <= 255)%N ->
  N.lor (N.shiftl (N.land b 15) 2) (N.shiftr c 6)
  = N.lor (N.shiftl (N.land b' 15) 2) (N.shiftr c' 6) ->
  N.land c 63 = N.land c' 63 ->
  c = c'.
Proof.
  intros Hb Hc Hb' Hc' H3 H4.
  rewrite <- (byte_from_2_6 c Hc), <- (byte_from_2_6 c' Hc').
  rewrite <- (third_sextet_low b c Hb Hc), <- (third_sextet_low b' c' Hb' Hc').
  rewrite H3, H4. reflexivity.
Qed.

Lemma tail_second_sextet (a : N) :
  N.shiftl (N.land a 3) 4 = N.lor (N.shiftl (N.land a 3) 4) (N.shiftr 0 4).
Proof. symmetry. apply N.lor_0_r. Qed.

Lemma tail_third_sextet (b : N) :
  N.shiftl (N.land b 15) 2 = N.lor (N.shiftl (N.land b 15) 2) (N.shiftr 0 6).
Proof. symmetry. apply N.lor_0_r. Qed.

(** The encoding loses nothing: lists of bytes with the same encoding are
    equal. *)
Lemma encode_N_inj (xs : list N) :
  forall ys,
    (forall x, List.In x xs -> (x <= 255)%N) ->
    (forall y, List.In y ys -> (y <= 255)%N) ->
    Base64.encode_N xs = Base64.encode_N ys -> xs = ys.
Proof.
  assert (Hz : (0 <= 255)%N) by lia.
  induction xs as [|a|a b|a b c rest IH] using list_ind3;
    intros [|a' [|b' [|c' rest']]] Hx Hy H;
    cbn [Base64.encode_N] in H; try discriminate H; try reflexivity.
  - (* one byte, one byte *)
    injection H as H1 H2.
    assert (Ha : (a <= 255)%N) by (apply Hx; simpl; auto).
    assert (Ha' : (a' <= 255)%N) by (apply Hy; simpl; auto).
    rewrite (tail_second_sextet a), (tail_second_sextet a') in H2.
    apply sextet_inj in H1; try apply first_sextet_bound; try assumption.
    apply sextet_inj in H2; try apply second_sextet_bound; try assumption.
    f_equal. exact (first_byte_determined a 0 a' 0 Ha Hz Ha' Hz H1 H2).
  - (* one byte, two bytes *)
    injection H as _ _ H3. exfalso.
    assert (Hb' : (b' <= 255)%N) by (apply Hy; simpl; auto).
    rewrite (tail_third_sextet b') in H3.
    symmetry in H3. revert H3. apply sextet_not_pad.
    apply third_sextet_bound; assumption.
  - (* one byte, three or more *)
    injection H as _ _ H3. exfalso.
    assert (Hb' : (b' <= 255)%N) by (apply Hy; simpl; auto).
    assert (Hc' : (c' <= 255)%N) by (apply Hy; simpl; auto).
    symmetry in H3. revert H3. apply sextet_not_pad.
    apply third_sextet_bound; assumption.
  - (* two bytes, one byte *)
    injection H as _ _ H3. exfalso.
    assert (Hb : (b <= 255)%N) by (apply Hx; simpl; auto).
    rewrite (tail_third_sextet b) in H3.
    revert H3. apply sextet_not_pad.
    apply third_sextet_bound; assumption.
  - (* two bytes, two bytes *)
    injection H as H1 H2 H3.
    assert (Ha : (a <= 255)%N) by (apply Hx; simpl; auto).
    assert (Hb : (b <= 255)%N) by (apply Hx; simpl; auto).
    assert (Ha' : (a' <= 255)%N) by (apply Hy; simpl; auto).
    assert (Hb' : (b' <= 255)%N) by (apply Hy; simpl; auto).
    rewrite (tail_third_sextet b), (tail_third_sextet b') in H3.
    apply sextet_inj in H1; try apply first_sextet_bound; try assumption.
    apply sextet_inj in H2; try apply second_sextet_bound; try assumption.
    apply sextet_inj in H3; try apply third_sextet_bound; try assumption.
    rewrite (first_byte_determined a b a' b' Ha Hb Ha' Hb' H1 H2).
    rewrite (second_byte_determined a b 0 a' b' 0 Ha Hb Hz Ha' Hb' Hz H2 H3).
    reflexivity.
  - (* two bytes, three or more *)
    injection H as _ _ _ H4. exfalso.
    assert (Hc' : (c' <= 255)%N) by (apply Hy; simpl; auto).
    symmetry in H4. revert H4. apply sextet_not_pad.
    apply fourth_sextet_bound; assumption.
  - (* three or more, one byte *)
    injection H as _ _ H3. exfalso.
    assert (Hb : (b <= 255)%N) by (apply Hx; simpl; auto).
    assert (Hc : (c <= 255)%N) by (apply Hx; simpl; auto).
    revert H3. apply sextet_not_pad.
    apply third_sextet_bound; assumption.
  - (* three or more, two bytes *)
    injection H as _ _ _ H4. exfalso.
    assert (Hc : (c <= 255)%N) by (apply Hx; simpl; auto).
    revert H4. apply sextet_not_pad.
    apply fourth_sextet_bound; assumption.
  - (* three or more, three or more *)
    injection H as H1 H2 H3 H4 Hrest.
    assert (Ha : (a <= 255)%N) by (apply Hx; simpl; auto).
    assert (Hb : (b <= 255)%N) by (apply Hx; simpl; auto).
    assert (Hc : (c <= 255)%N) by (apply Hx; simpl; auto).
    assert (Ha' : (a' <= 255)%N) by (apply Hy; simpl; auto).
    assert (Hb' : (b' <= 255)%N) by (apply Hy; simpl; auto).
    assert (Hc' : (c' <= 255)%N) by (apply Hy; simpl; auto).
    apply sextet_inj in H1; try apply first_sextet_bound; try assumption.
    apply sextet_inj in H2; try apply second_sextet_bound; try assumption.
    apply sextet_inj in H3; try apply third_sextet_bound; try assumption.
    apply sextet_inj in H4; try apply fourth_sextet_bound; try assumption.
    rewrite (first_byte_determined a b a' b' Ha Hb Ha' Hb' H1 H2).
    rewrite (second_byte_determined a b c a' b' c' Ha Hb Hc Ha' Hb' Hc' H2 H3).
    rewrite (third_byte_determined b c b' c' Hb Hc Hb' Hc' H3 H4).
    do 3 f_equal. apply IH; [| |exact Hrest].
    + intros x Hin. apply Hx. simpl. auto.
    + intros y Hin. apply Hy. simpl. auto.
Qed.

Lemma encode_N_length (xs : list N) :
  length (Base64.encode_N xs) = (4 * ((length xs + 2) / 3))%nat.
Proof.
  induction xs as [|a|a b|a b c rest IH] using list_ind3; try reflexivity.
  cbn [Base64.encode_N length]. rewrite IH.
  replace (S (S (S (length rest))) + 2)%nat with (length rest + 2 + 1 * 3)%nat
    by lia.
  rewrite Nat.div_add by lia. lia.
Qed.

Lemma encode_N_ascii (xs : list N) :
  Forall (fun c => (c < 128)%N) (Base64.encode_N xs).
Proof.
  assert (Hpad : (Base64.pad < 128)%N) by (vm_compute; reflexivity).
  induction xs as [|a|a b|a b c rest IH] using list_ind3;
    cbn [Base64.encode_N]; repeat constructor;
    try apply sextet_ascii; try exact Hpad; try exact IH.
Qed.

Lemma map_to_N_inj (d1 d2 : list byte) :
  List.map Byte.to_N d1 = List.map Byte.to_N d2 -> d1 = d2.
Proof.
  revert d2. induction d1 as [|x d1 IH]; intros [|y d2]; simpl;
    try discriminate; [reflexivity|].
  intros [= Hxy Hrest]. f_equal; [|apply IH; exact Hrest].
  pose proof (Byte.of_to_N x) as Hx. rewrite Hxy, Byte.of_to_N in Hx.
  injection Hx as ->. reflexivity.
Qed.

Lemma b64encode_inj (d1 d2 : list byte) :
  Base64.b64encode d1 = Base64.b64encode d2 -> d1 = d2.
Proof.
  unfold Base64.b64encode. intros H. apply map_to_N_inj.
  apply encode_N_inj; [| |exact H];
    intros x Hx; apply in_map_iff in Hx as (z & <- & _);
      apply Byte.to_N_bounded.
Qed.

(** X22. Different images are never sent as the same request: the request
    [classify_image] builds holds the image's base64 text, which determines
    the bytes, whatever [max_tokens] and [temperature] are. *)
Theorem different_images_give_different_requests
    (self : ImageDetectionService) (image_data image_data' : list byte)
    (max_tokens max_tokens' : Z) (temperature temperature' : float) :
  image_data <> image_data' ->
  build_request self image_data max_tokens temperature
  <> build_request self image_data' max_tokens' temperature'.
Proof.
  intros Hne H. apply Hne. apply b64encode_inj.
  apply (f_equal (fun r => messages (req_json r))) in H.
  unfold build_request, _prepare_payload in H. cbn [req_json messages] in H.
  injection H as H. exact H.
Qed.

Lemma different_images_witness :
  build_request demo_service demo_image 50 0.1%float
  <> build_request demo_service [x01] 50 0.1%float.
Proof.
  apply different_images_give_different_requests. discriminate.
Defined.

(** X23. The base64 text of an image of n bytes has 4 * ceil(n / 3)
    characters, all of them ASCII (so that decoding it as UTF-8 on line 112
    cannot fail), and the empty image gives the empty text. *)
Theorem encoded_image_length_and_alphabet (image_data : list byte) :
  length (Base64.b64encode image_data)
  = (4 * ((length image_data + 2) / 3))%nat /\
  Forall (fun c => (c < 128)%N) (Base64.b64encode image_data) /\
  (Base64.b64encode image_data = [] <-> image_data = []).
Proof.
  unfold Base64.b64encode. split; [|split].
  - rewrite encode_N_length, length_map. reflexivity.
  - apply encode_N_ascii.
  - split.
    + intros H. apply (b64encode_inj image_data []). exact H.
    + intros ->. reflexivity.
Qed.

(* ===================================================================== *)
(** * A 200 at any attempt, and where the sleeps stand *)
(* ===================================================================== *)

Lemma loop_retried_then_returns_trace (str_float : float -> str)
    (self : ImageDetectionService) (net : nat -> Request -> post_outcome)
    (req : Request) (retry_count : Z) (failures todo attempt : nat)
    (last : option exn) (c : str) :
  (forall a, (attempt <= a < attempt + failures)%nat ->
     retried (except_clauses str_float self (try_block (net a req))) = true) ->
  except_clauses str_float self (try_block (net (attempt + failures)%nat req))
  = Returns c ->
  exists tr,
    attempts str_float self net req retry_count (failures + S todo)%nat attempt last
    = (LoopReturn c, tr ++ [EvPost (attempt + failures)%nat req]) /\
    posts tr = failures.
Proof.
  revert attempt last. induction failures as [|n IH]; intros attempt last H Hret.
  - rewrite Nat.add_0_r in *. simpl Nat.add.
    rewrite (loop_returns _ _ _ _ _ _ _ _ _ Hret). exists []. split; reflexivity.
  - assert (Hr : retried (except_clauses str_float self
                            (try_block (net attempt req))) = true)
      by (apply H; lia).
    assert (IH' : forall e, exists tr,
              attempts str_float self net req retry_count (n + S todo)%nat
                (S attempt) (Some e)
              = (LoopReturn c, tr ++ [EvPost (attempt + S n)%nat req]) /\
              posts tr = n).
    { intros e.
      replace (attempt + S n)%nat with (S attempt + n)%nat by lia.
      apply IH.
      - intros a Ha. apply H. lia.
      - replace (S attempt + n)%nat with (attempt + S n)%nat by lia. exact Hret. }
    simpl Nat.add.
    destruct (except_clauses str_float self (try_block (net attempt req)))
      as [c'|e|e|e] eqn:E; try discriminate.
    + rewrite (loop_continues _ _ _ _ _ _ _ _ _ E).
      destruct (IH' e) as (tr & -> & Hp). simpl.
      exists (EvPost attempt req :: tr). split; [reflexivity|].
      unfold posts in *. simpl. rewrite Hp. reflexivity.
    + rewrite (loop_backs_off _ _ _ _ _ _ _ _ _ E).
      destruct (IH' e) as (tr & -> & Hp). simpl.
      exists (EvPost attempt req :: backoff attempt retry_count ++ tr).
      split; [simpl; rewrite app_assoc; reflexivity|].
      unfold posts, backoff in *. simpl.
      destruct (_ <? _); simpl; rewrite Hp; reflexivity.
Qed.

(** Where a sleep stands in the trace of the loop: right after the request
    of an attempt that is not the last, and right before the next request. *)
Lemma loop_sleep_position (str_float : float -> str)
    (self : ImageDetectionService) (net : nat -> Request -> post_outcome)
    (req : Request) (retry_count : Z) (todo attempt : nat)
    (last : option exn) (pre post : list event) (z : Z) :
  Z.of_nat (attempt + todo) = retry_count ->
  snd (attempts str_float self net req retry_count todo attempt last)
  = pre ++ EvSleep z :: post ->
  exists a front post',
    pre = front ++ [EvPost a req] /\
    z = 2 ^ Z.of_nat a /\
    Z.of_nat a < retry_count - 1 /\
    post = EvPost (S a) req :: post'.
Proof.
  revert attempt last pre. induction todo as [|todo IH]; intros attempt last pre Hn H.
  - simpl in H. destruct pre; discriminate.
  - assert (Hnext : Z.of_nat (S attempt + todo) = retry_count) by lia.
    assert (Hrest : forall e before pre1,
              snd (attempts str_float self net req retry_count todo (S attempt)
                     (Some e)) = pre1 ++ EvSleep z :: post ->
              exists a front post',
                before ++ pre1 = front ++ [EvPost a req] /\
                z = 2 ^ Z.of_nat a /\
                Z.of_nat a < retry_count - 1 /\
                post = EvPost (S a) req :: post').
    { intros e before pre1 H1.
      destruct (IH (S attempt) (Some e) pre1 Hnext H1)
        as (a & front & post' & -> & Hz & Ha & Hpost).
      exists a, (before ++ front), post'. rewrite app_assoc. auto. }
    destruct (except_clauses str_float self (try_block (net attempt req)))
      as [c|e|e|e] eqn:E.
    + rewrite (loop_returns _ _ _ _ _ _ _ _ _ E) in H. simpl in H.
      destruct pre as [|x [|y pre]]; discriminate.
    + rewrite (loop_continues _ _ _ _ _ _ _ _ _ E) in H. simpl in H.
      destruct pre as [|x pre1]; [discriminate|].
      injection H as <- H. exact (Hrest e [EvPost attempt req] pre1 H).
    + rewrite (loop_breaks _ _ _ _ _ _ _ _ _ E) in H. simpl in H.
      destruct pre as [|x [|y pre]]; discriminate.
    + rewrite (loop_backs_off _ _ _ _ _ _ _ _ _ E) in H. simpl in H.
      destruct pre as [|x pre1]; [discriminate|].
      injection H as <- H. unfold backoff in H.
      destruct (Z.of_nat attempt <? retry_count - 1) eqn:Hlt.
      * simpl in H. destruct pre1 as [|y pre2].
        -- injection H as <- <-.
           destruct todo as [|t]; [lia|].
           destruct (loop_first_post str_float self net req retry_count t
                       (S attempt) (Some e)) as [tr Htr].
           exists attempt, [], tr. repeat split; [lia|exact Htr].
        -- injection H as <- H.
           exact (Hrest e [EvPost attempt req; EvSleep (2 ^ Z.of_nat attempt)]
                    pre2 H).
      * simpl in H. exact (Hrest e [EvPost attempt req] pre1 H).
Qed.

(** What a well-formed 200 makes of an attempt. *)
Lemma well_formed_200_outcome (str_float : float -> str)
    (self : ImageDetectionService) (r : Response) (result : value) (s : str) :
  status_code r = 200 -> json r = Ok result -> well_formed result s ->
  except_clauses str_float self (try_block (Responds r))
  = match strip s with
    | [] => Backoff (Exception (lit "Empty classification result"))
    | c :: cs => Returns (c :: cs)
    end.
Proof.
  intros Hst Hjson Hwf. simpl. rewrite Hst, Hjson. simpl.
  rewrite (extract_well_formed _ _ Hwf). destruct (strip s); reflexivity.
Qed.

(** C8. Take any attempt the loop reaches (the ones before it failed and
    were retried, and it is within [retry_count]) that is answered with a
    200 whose parsed body is well formed: an object whose ["choices"] is a
    list starting with an object whose ["message"] is an object whose
    ["content"] is a string [s]. When [s.strip()] is not empty,
    [classify_image] returns exactly [s.strip()], the first candidate's text
    without its surrounding whitespace, and that request was its last. When
    [s.strip()] is empty the attempt is a failure instead: it records
    [Exception("Empty classification result")] and goes on to the backoff.
    Whatever the network does, a text that [classify_image] returns is not
    empty and is the strip of some string. *)
Theorem classify_image_returns_stripped_text
    (str_float : float -> str) (self : ImageDetectionService)
    (net : nat -> Request -> post_outcome) (image_data : list byte)
    (max_tokens : Z) (temperature : float) (retry_count : Z)
    (attempt : nat) (r : Response) (result : value) (s : str) :
  let req := build_request self image_data max_tokens temperature in
  let outcome := fun a => except_clauses str_float self (try_block (net a req)) in
  api_key self <> [] -> Z.of_nat attempt < retry_count ->
  (forall a, (a < attempt)%nat -> retried (outcome a) = true) ->
  net attempt req = Responds r ->
  status_code r = 200 -> json r = Ok result -> well_formed result s ->
  match strip s with
  | [] => outcome attempt = Backoff (Exception (lit "Empty classification result"))
  | _ :: _ =>
      exists tr,
        classify_image str_float self net image_data max_tokens temperature
          retry_count = (Ok (strip s), tr ++ [EvPost attempt req]) /\
        posts tr = attempt
  end /\
  (forall c,
     fst (classify_image str_float self net image_data max_tokens temperature
            retry_count) = Ok c ->
     c <> [] /\ exists s', c = strip s').
Proof.
  intros req outcome Hkey Hrc Hfail Hnet Hst Hjson Hwf. split.
  - pose proof (well_formed_200_outcome str_float self r result s Hst Hjson Hwf)
      as Hout.
    rewrite <- Hnet in Hout. fold (outcome attempt) in Hout.
    destruct (strip s) as [|c cs] eqn:Hs; [exact Hout|].
    unfold classify_image. destruct (api_key self) as [|k ks]; [congruence|].
    fold req.
    replace (Z.to_nat retry_count)
      with (attempt + S (Z.to_nat retry_count - S attempt))%nat by lia.
    destruct (loop_retried_then_returns_trace str_float self net req retry_count
                attempt (Z.to_nat retry_count - S attempt) 0 None (c :: cs))
      as (tr & Hloop & Hposts).
    + intros a Ha. apply Hfail. lia.
    + exact Hout.
    + exists tr. rewrite Hloop. split; [reflexivity|exact Hposts].
  - intros c. unfold classify_image.
    destruct (api_key self) as [|k ks]; [discriminate|].
    pose proof (loop_return_nonempty str_float self net req retry_count
                  (Z.to_nat retry_count) 0 None) as Hne.
    pose proof (attempts_return_stripped str_float self net req retry_count
                  (Z.to_nat retry_count) 0 None) as Hstrip.
    fold req.
    destruct (attempts str_float self net req retry_count
                (Z.to_nat retry_count) 0 None) as [[c'|l] tr]; simpl in *.
    + intros [= <-]. split; [apply Hne|apply Hstrip]; reflexivity.
    + discriminate.
Qed.

Lemma classify_image_returns_stripped_text_witness :
  exists tr,
    classify_image demo_str_float demo_service net_503_503_200 demo_image 50
      0.1%float 3
    = (Ok (lit "cat"), tr ++ [EvPost 2 demo_request]) /\
    posts tr = 2%nat.
Proof.
  refine (proj1 (classify_image_returns_stripped_text demo_str_float demo_service
            net_503_503_200 demo_image 50 0.1%float 3 2
            {| status_code := 200; text := lit "{...}";
               json := Ok (completion (lit " cat ")) |}
            (completion (lit " cat ")) (lit " cat ") _ _ _ _ _ _ _)).
  - discriminate.
  - reflexivity.
  - intros [|[|a]] Ha; [reflexivity|reflexivity|lia].
  - reflexivity.
  - reflexivity.
  - reflexivity.
  - do 4 eexists. repeat split; reflexivity.
Defined.

(** X3. Whatever the network does, every sleep of [classify_image] stands
    right after the request of an attempt [a] that is not the last one
    ([a < retry_count - 1]), lasts [2 ** a] seconds, and is followed at once
    by the request of attempt [a + 1]: there is no sleep before the first
    request, none after the last attempt, and none at the end of the call. *)
Theorem classify_image_sleeps (str_float : float -> str)
    (self : ImageDetectionService) (net : nat -> Request -> post_outcome)
    (image_data : list byte) (max_tokens : Z) (temperature : float)
    (retry_count : Z) :
  let req := build_request self image_data max_tokens temperature in
  let tr := snd (classify_image str_float self net image_data max_tokens
                   temperature retry_count) in
  Forall (fun z => exists a : nat,
                     z = 2 ^ Z.of_nat a /\ Z.of_nat a < retry_count - 1)
         (sleeps tr) /\
  (forall pre z post,
     tr = pre ++ EvSleep z :: post ->
     exists a front post',
       pre = front ++ [EvPost a req] /\
       z = 2 ^ Z.of_nat a /\
       Z.of_nat a < retry_count - 1 /\
       post = EvPost (S a) req :: post').
Proof.
  intros req tr. subst tr. unfold classify_image.
  destruct (api_key self) as [|k ks].
  - split; [constructor|]. intros pre z post H. simpl in H.
    destruct pre; discriminate.
  - fold req.
    pose proof (loop_sleeps str_float self net req retry_count
                  (Z.to_nat retry_count) 0 None) as Hs.
    pose proof (fun pre post z =>
                  loop_sleep_position str_float self net req retry_count
                    (Z.to_nat retry_count) 0 None pre post z) as Hp.
    destruct (Z_le_gt_dec retry_count 0) as [Hle|Hgt].
    + replace (Z.to_nat retry_count) with O in * by lia. simpl.
      split; [constructor|]. intros pre z post H. destruct pre; discriminate.
    + assert (Hn : Z.of_nat (0 + Z.to_nat retry_count) = retry_count) by lia.
      destruct (attempts str_float self net req retry_count
                  (Z.to_nat retry_count) 0 None) as [[c|l] t]; simpl in *;
        (split; [exact Hs|]); intros pre z post H; exact (Hp pre post z Hn H).
Qed.

Lemma classify_image_sleeps_witness :
  exists a front post',
    [EvPost 0 demo_request; EvSleep 1; EvPost 1 demo_request]
    = front ++ [EvPost a demo_request] /\
    2 = 2 ^ Z.of_nat a /\
    Z.of_nat a < 3 - 1 /\
    [EvPost 2 demo_request] = EvPost (S a) demo_request :: post'.
Proof.
  refine (proj2 (classify_image_sleeps demo_str_float demo_service
            (net_always response_404) demo_image 50 0.1%float 3)
            [EvPost 0 demo_request; EvSleep 1; EvPost 1 demo_request] 2
            [EvPost 2 demo_request] _).
  vm_compute. reflexivity.
Defined.
